(** * PhysionetMI dataset adapter (moabb/datasets/physionet_mi.py)

    A shallow embedding of the adapter and the properties of its
    data-shaping contract.

    Conventions of the model.
    - Python [str] values are [string]s.  [str.upper] is modelled on the
      ASCII range (EDF channel labels are ASCII); other characters are
      left as they are.
    - Python [int]s are [Z].
    - The external signal-processing library (mne) is an interface
      ([Mne] below): file download, EDF decoding, annotation decoding and
      the library's own validation are its members; the adapter's code is
      written against that interface, in a state-and-error monad over the
      process-wide configuration, the log of download requests and the
      store of recording objects.
    - The methods are given twice.  [_load_one_run],
      [_get_single_subject_data] and [data_path] are written over a
      [set_config] that succeeds and a download that leaves the
      configuration as it is; [load_one_run_io],
      [get_single_subject_data_io] and [data_path_io] are the same
      statements over a [set_config] that can raise and a download that
      can rewrite the configuration ([config_effects]).  The first are
      the second with the ideal effects. *)

From Stdlib Require Import ZArith Ascii String DecimalString.
From Stdlib Require DecimalZ.
From stdpp Require Import base decidable option list strings gmap fin_maps.

Local Open Scope string_scope.
Local Open Scope list_scope.
Local Open Scope Z_scope.

(** ** Channel-name normalization (lines 102-107) *)

Module ChannelNames.

(** The character ['.'] passed to [str.strip]. *)
Definition dot : ascii := "."%char.

(** [str.strip] scans from the left while the character is in the set,
    then from the right; [lstrip_dots] and [rstrip_dots] are the two
    scans. *)
Fixpoint lstrip_dots (s : string) : string :=
  match s with
  | String c s' => if Ascii.eqb c dot then lstrip_dots s' else s
  | EmptyString => EmptyString
  end.

Fixpoint rstrip_dots (s : string) : string :=
  match s with
  | EmptyString => EmptyString
  | String c s' =>
      match rstrip_dots s' with
      | EmptyString => if Ascii.eqb c dot then EmptyString else String c EmptyString
      | t => String c t
      end
  end.

(** [lambda x: x.strip('.')] *)
Definition strip_dots (x : string) : string := rstrip_dots (lstrip_dots x).

Definition upper_char (c : ascii) : ascii :=
  let n := N_of_ascii c in
  if (97 <=? n)%N && (n <=? 122)%N then ascii_of_N (n - 32) else c.

(** [lambda x: x.upper()] *)
Fixpoint upper (x : string) : string :=
  match x with
  | EmptyString => EmptyString
  | String c s => String (upper_char c) (upper s)
  end.

(** The dict given to the third [rename_channels] call. *)
Definition canonical_names : list (string * string) :=
  [("AFZ", "AFz"); ("PZ", "Pz"); ("FPZ", "Fpz");
   ("FCZ", "FCz"); ("FP1", "Fp1"); ("CZ", "Cz");
   ("OZ", "Oz"); ("POZ", "POz"); ("IZ", "Iz");
   ("CPZ", "CPz"); ("FP2", "Fp2"); ("FZ", "Fz")].

Fixpoint dict_get (d : list (string * string)) (k : string) : option string :=
  match d with
  | [] => None
  | (k', v) :: d' => if String.eqb k' k then Some v else dict_get d' k
  end.

(** Renaming by a dict: a name that is a key is replaced by its value,
    any other name is kept. *)
Definition rename_by (d : list (string * string)) (x : string) : string :=
  match dict_get d x with
  | Some v => v
  | None => x
  end.

(** The first two renamings (lines 102-103). *)
Definition case_normalize (x : string) : string := upper (strip_dots x).

(** The three renamings in sequence, on one name. *)
Definition normalize_name (x : string) : string :=
  rename_by canonical_names (upper (strip_dots x)).

(** A run of [n] dots. *)
Fixpoint dots (n : nat) : string :=
  match n with
  | O => EmptyString
  | S n' => String dot (dots n')
  end.

Definition starts_with_dot (s : string) : bool :=
  match s with
  | String c _ => Ascii.eqb c dot
  | EmptyString => false
  end.

Fixpoint ends_with_dot (s : string) : bool :=
  match s with
  | EmptyString => false
  | String c EmptyString => Ascii.eqb c dot
  | String _ s' => ends_with_dot s'
  end.

(** The reading of the first two renamings in the specification's data
    model: uppercase, and strip one trailing dot, nothing at the start. *)
Fixpoint strip_trailing_dot_spec (s : string) : string :=
  match s with
  | EmptyString => EmptyString
  | String c EmptyString => if Ascii.eqb c dot then EmptyString else s
  | String c s' => String c (strip_trailing_dot_spec s')
  end.

Definition case_normalize_spec (x : string) : string :=
  upper (strip_trailing_dot_spec x).

End ChannelNames.

(** ** Python values, errors and the recording object *)

Inductive exn : Type :=
| ValueError (msg : string)
| IndexError
| LibraryError (what : string)
| DanglingReference.

Inductive result (A : Type) : Type :=
| Ok (a : A)
| Raise (e : exn).
Arguments Ok {A} a.
Arguments Raise {A} e.

(** The values the [verbose] argument takes. *)
Inductive verbosity : Type :=
| VNone
| VBool (b : bool)
| VStr (s : string)
| VInt (n : Z).

(** One row of the events array: column 0 is the sample offset, column 2
    the code. *)
Record event : Type := mkEvent { ev_sample : Z; ev_prev : Z; ev_code : Z }.

(** What [mne.create_info] returns. *)
Record Info (sample : Type) : Type := mkInfo {
  info_ch_names : list string;
  info_sfreq : sample;
  info_ch_types : list string
}.
Arguments mkInfo {sample} _ _ _.
Arguments info_ch_names {sample} _.
Arguments info_sfreq {sample} _.
Arguments info_ch_types {sample} _.

(** A preloaded recording: [_data] has one row per channel. *)
Record Raw (sample : Type) : Type := mkRaw {
  ch_names : list string;
  ch_types : list string;
  sfreq : sample;
  _data : list (list sample);
  n_times : nat;
  annotations : list (sample * sample * string);
  montage : option string
}.
Arguments mkRaw {sample} _ _ _ _ _ _ _.
Arguments ch_names {sample} _.
Arguments ch_types {sample} _.
Arguments sfreq {sample} _.
Arguments _data {sample} _.
Arguments n_times {sample} _.
Arguments annotations {sample} _.
Arguments montage {sample} _.

(** The calls into the library that the library itself validates. *)
Inductive mne_call (sample : Type) : Type :=
| CallRename (names new_names : list string)
| CallRenameDict (d : list (string * string)) (names : list string)
| CallSetMontage (kind : string) (names : list string)
| CallAddChannels (raw : Raw sample) (others : list (Raw sample)).
Arguments CallRename {sample} _ _.
Arguments CallRenameDict {sample} _ _.
Arguments CallSetMontage {sample} _ _.
Arguments CallAddChannels {sample} _ _.

(** One call of [eegbci.load_data]. *)
Record request : Type := mkRequest {
  req_subject : Z;
  req_runs : list Z;
  req_verbose : verbosity;
  req_base_url : option string
}.

(** The external library and the environment.  [sample] is the element
    type of the data array (float64) and [of_int] the conversion of an
    integer stored into it. *)
Class Mne : Type := {
  sample : Type;
  sample_eq_dec :: EqDecision sample;
  of_int : Z -> sample;
  (** [osp.expanduser("~")] *)
  home : string;
  (** [eegbci.load_data], given the configured cache directory *)
  eegbci_load_data :
    option string -> Z -> list Z -> verbosity -> option string ->
    result (list string);
  (** [read_raw_edf(fname, preload, verbose)] *)
  read_raw_edf : string -> bool -> verbosity -> result (Raw sample);
  (** [mne.events_from_annotations]: the events array and the event ids *)
  events_from_annotations : Raw sample -> list event * list (string * Z);
  (** whether the library accepts a call (otherwise it raises) *)
  mne_accepts : mne_call sample -> bool;
  (** integers up to 2^53 are stored exactly *)
  of_int_inj : forall a b : Z,
    Z.abs a <= 9007199254740992 -> Z.abs b <= 9007199254740992 ->
    of_int a = of_int b -> a = b
}.

(** The dataset object: the attributes [__init__] sets. *)
Record PhysionetMI : Type := mkPhysionetMI {
  subject_list : list Z;
  event_id : list (string * Z);
  feet_runs : list Z;
  hand_runs : list Z
}.

Definition BASE_URL : string :=
  "http://www.physionet.org/physiobank/database/eegmmidb/".

Definition CONFIG_KEY : string := "MNE_DATASETS_EEGBCI_PATH".

(** [list(range(a, b))] *)
Definition range (a b : Z) : list Z :=
  (fun i => a + Z.of_nat i) <$> seq 0 (Z.to_nat (b - a)).

(** Modelled from the spec: [BaseDataset.__init__] (moabb/datasets/base.py)
    keeps its [subjects] argument as [subject_list] and its [events]
    argument as [event_id]; the declared metadata is the subject id list
    1..109 and the event-code vocabulary. *)
Definition BaseDataset_init (subjects : list Z) (events : list (string * Z))
    (feet hand : list Z) : PhysionetMI :=
  mkPhysionetMI subjects events feet hand.

(** [PhysionetMI.__init__] *)
Definition __init__ (imagined executed : bool) : PhysionetMI :=
  let feet_runs := [] in
  let hand_runs := [] in
  let '(feet_runs, hand_runs) :=
    if imagined then (feet_runs ++ [6; 10; 14], hand_runs ++ [4; 8; 12])
    else (feet_runs, hand_runs) in
  let '(feet_runs, hand_runs) :=
    if executed then (feet_runs ++ [5; 9; 13], hand_runs ++ [3; 7; 11])
    else (feet_runs, hand_runs) in
  BaseDataset_init (range 1 110)
    [("left_hand", 2); ("right_hand", 3); ("feet", 5); ("hands", 4); ("rest", 1)]
    feet_runs hand_runs.

(** ['%d' % run] *)
Definition format_d (z : Z) : string := NilZero.string_of_int (Z.to_int z).

(** ['run_%d' % run] *)
Definition run_label (run : Z) : string := "run_" +:+ format_d run.

(** [posixpath.join(a, b)] *)
Definition ends_with_sep (s : string) : bool :=
  match String.length s with
  | O => false
  | S k => match String.get k s with
           | Some c => Ascii.eqb c "/"%char
           | None => false
           end
  end.

Definition osp_join (a b : string) : string :=
  if String.prefix "/" b then b
  else if String.eqb a "" || ends_with_sep a then a +:+ b
  else a +:+ "/" +:+ b.

(** ** The adapter, against the library interface *)

Section Adapter.
Context `{lib : Mne}.

(** A reference to a recording object in the store. *)
Definition ref : Type := nat.

(** The process-wide state: the configuration values, the download
    requests made so far (oldest first), and the recording objects. *)
Record world : Type := mkWorld {
  config : gmap string string;
  requests : list request;
  heap : list (Raw sample)
}.

Definition M (A : Type) : Type := world -> result A * world.

Definition ret {A : Type} (a : A) : M A := fun w => (Ok a, w).

Definition raise {A : Type} (e : exn) : M A := fun w => (Raise e, w).

Definition bind {A B : Type} (c : M A) (k : A -> M B) : M B :=
  fun w =>
    match c w with
    | (Ok a, w') => k a w'
    | (Raise e, w') => (Raise e, w')
    end.

Definition lift {A : Type} (r : result A) : M A := fun w => (r, w).

Notation "'do' x <- c ; k" := (bind c (fun x => k))
  (at level 10, x name, c at level 100, k at level 200).
Notation "'do' ' p <- c ; k" := (bind c (fun x => let 'p := x in k))
  (at level 10, p pattern, c at level 100, k at level 200).

(** A [for] loop threading the loop-carried variable. *)
Fixpoint for_each {A S : Type} (xs : list A) (body : S -> A -> M S) (s : S) : M S :=
  match xs with
  | [] => ret s
  | x :: xs' => do s' <- body s x; for_each xs' body s'
  end.

(** *** Configuration *)

Definition get_config (key : string) : M (option string) :=
  fun w => (Ok (config w !! key), w).

(** [set_config(key, value)], as a write that succeeds; its failure is
    in [set_config_io] below. *)
Definition set_config (key value : string) : M unit :=
  fun w => (Ok tt, mkWorld (<[key := value]> (config w)) (requests w) (heap w)).

(** *** The store of recordings *)

Definition new_raw (r : Raw sample) : M ref :=
  fun w => (Ok (length (heap w)), mkWorld (config w) (requests w) (heap w ++ [r])).

Definition read_raw (p : ref) : M (Raw sample) :=
  fun w =>
    match heap w !! p with
    | Some r => (Ok r, w)
    | None => (Raise DanglingReference, w)
    end.

Definition modify_raw (p : ref) (f : Raw sample -> Raw sample) : M unit :=
  fun w => (Ok tt, mkWorld (config w) (requests w) (alter f p (heap w))).

Definition with_ch_names (names : list string) (r : Raw sample) : Raw sample :=
  mkRaw names (ch_types r) (sfreq r) (_data r) (n_times r) (annotations r) (montage r).

Definition with_montage (kind : string) (r : Raw sample) : Raw sample :=
  mkRaw (ch_names r) (ch_types r) (sfreq r) (_data r) (n_times r) (annotations r) (Some kind).

Definition with_data (d : list (list sample)) (r : Raw sample) : Raw sample :=
  mkRaw (ch_names r) (ch_types r) (sfreq r) d (n_times r) (annotations r) (montage r).

(** *** numpy arrays *)

(** An index into an axis of length [len]: a negative index counts from
    the end, an index out of range gives [None] (IndexError). *)
Definition np_index (len : nat) (i : Z) : option nat :=
  if (0 <=? i) && (i <? Z.of_nat len) then Some (Z.to_nat i)
  else if (i <? 0) && (- Z.of_nat len <=? i) then Some (Z.to_nat (Z.of_nat len + i))
  else None.

(** [np.zeros((rows, cols))] *)
Definition np_zeros (rows cols : nat) : list (list sample) :=
  replicate rows (replicate cols (of_int 0)).

(** [a[r, c] = v] *)
Definition np_setitem (a : list (list sample)) (r c : Z) (v : sample)
    : result (list (list sample)) :=
  match np_index (length a) r with
  | None => Raise IndexError
  | Some r' =>
      match a !! r' with
      | None => Raise IndexError
      | Some row =>
          match np_index (length row) c with
          | None => Raise IndexError
          | Some c' => Ok (<[r' := <[c' := v]> row]> a)
          end
      end
  end.

(** [row[mask] = v] on one row. *)
Definition assign_where (mask : list bool) (v : sample) (row : list sample)
    : list sample :=
  zip_with (fun (b : bool) x => if b then v else x) mask row.

(** A view on one row of a recording's array: [raw._data[i]]. *)
Record row_view : Type := mkView { view_raw : ref; view_row : nat }.

(** [raw._data[i]] *)
Definition data_row (raw : ref) (i : Z) : M row_view :=
  do r <- read_raw raw;
  match np_index (length (_data r)) i with
  | Some k => ret (mkView raw k)
  | None => raise IndexError
  end.

(** [view == c]: evaluated on what the array holds now. *)
Definition view_eq (v : row_view) (c : Z) : M (list bool) :=
  do r <- read_raw (view_raw v);
  match _data r !! view_row v with
  | Some row => ret ((fun x => bool_decide (x = of_int c)) <$> row)
  | None => raise IndexError
  end.

(** [raw._data[i, mask] = c] *)
Definition data_setitem_where (raw : ref) (i : Z) (mask : list bool) (c : Z) : M unit :=
  do r <- read_raw raw;
  match np_index (length (_data r)) i with
  | None => raise IndexError
  | Some k =>
      match _data r !! k with
      | None => raise IndexError
      | Some row =>
          if bool_decide (length mask = length row)
          then modify_raw raw (with_data (<[k := assign_where mask (of_int c) row]> (_data r)))
          else raise IndexError
      end
  end.

(** *** Calls into the library *)

(** [eegbci.load_data(subject, runs, verbose, base_url)]: the request is
    logged, the outcome is the library's.  The configuration is left as
    it is here; a download that rewrites it is [load_data_io] below. *)
Definition load_data (subject : Z) (runs : list Z) (verbose : verbosity)
    (base_url : option string) : M (list string) :=
  fun w =>
    (eegbci_load_data (config w !! CONFIG_KEY) subject runs verbose base_url,
     mkWorld (config w) (requests w ++ [mkRequest subject runs verbose base_url]) (heap w)).

(** [paths[0]] *)
Definition getitem0 (paths : list string) : M string :=
  match paths with
  | p :: _ => ret p
  | [] => raise IndexError
  end.

(** [read_raw_edf(fname, preload=..., verbose=...)]: a new object. *)
Definition read_raw_edf_new (fname : string) (preload : bool) (verbose : verbosity) : M ref :=
  do r <- lift (read_raw_edf fname preload verbose);
  new_raw r.

(** [raw.rename_channels(f)] with a callable. *)
Definition rename_channels (raw : ref) (f : string -> string) : M unit :=
  do r <- read_raw raw;
  let new_names := f <$> ch_names r in
  if mne_accepts (CallRename (ch_names r) new_names)
  then modify_raw raw (with_ch_names new_names)
  else raise (LibraryError "rename_channels").

(** [raw.rename_channels(d)] with a dict. *)
Definition rename_channels_dict (raw : ref) (d : list (string * string)) : M unit :=
  do r <- read_raw raw;
  if mne_accepts (CallRenameDict d (ch_names r))
  then modify_raw raw (with_ch_names (ChannelNames.rename_by d <$> ch_names r))
  else raise (LibraryError "rename_channels").

(** [mne.channels.make_standard_montage(kind)] *)
Definition make_standard_montage (kind : string) : string := kind.

(** [raw.set_montage(m)] *)
Definition set_montage (raw : ref) (m : string) : M unit :=
  do r <- read_raw raw;
  if mne_accepts (CallSetMontage m (ch_names r))
  then modify_raw raw (with_montage m)
  else raise (LibraryError "set_montage").

(** [mne.events_from_annotations(raw)] *)
Definition events_of (raw : ref) : M (list event * list (string * Z)) :=
  do r <- read_raw raw;
  ret (events_from_annotations r).

(** [mne.create_info(ch_names, sfreq, ch_types)] *)
Definition create_info (names : list string) (sf : sample) (types : list string)
    : Info sample :=
  mkInfo names sf types.

(** [mne.io.RawArray(data, info)] *)
Definition RawArray (data : list (list sample)) (info : Info sample) : Raw sample :=
  mkRaw (info_ch_names info) (info_ch_types info) (info_sfreq info) data
    (match data with row :: _ => length row | [] => O end) [] None.

(** What [add_channels] makes of the object. *)
Definition with_channels (others : list (Raw sample)) (r : Raw sample) : Raw sample :=
  mkRaw (ch_names r ++ concat (ch_names <$> others))
    (ch_types r ++ concat (ch_types <$> others))
    (sfreq r)
    (_data r ++ concat (_data <$> others))
    (n_times r) (annotations r) (montage r).

(** [raw.add_channels(others, force_update_info=True)]: in place, returns
    the object itself. *)
Definition add_channels (raw : ref) (others : list (Raw sample)) : M ref :=
  do r <- read_raw raw;
  if mne_accepts (CallAddChannels r others)
  then (do _ <- modify_raw raw (with_channels others); ret raw)
  else raise (LibraryError "add_channels").

(** *** The methods of [PhysionetMI] *)

Definition _load_one_run (self : PhysionetMI) (subject run : Z) (preload : bool) : M ref :=
  do cfg <- get_config CONFIG_KEY;
  do _ <- (match cfg with
           | None => set_config CONFIG_KEY (osp_join home "mne_data")
           | Some _ => ret tt
           end);
  do paths <- load_data subject [run] (VStr "ERROR") (Some BASE_URL);
  do raw_fname <- getitem0 paths;
  do raw <- read_raw_edf_new raw_fname preload (VStr "ERROR");
  do _ <- rename_channels raw ChannelNames.strip_dots;
  do _ <- rename_channels raw ChannelNames.upper;
  do _ <- rename_channels_dict raw ChannelNames.canonical_names;
  do _ <- set_montage raw (make_standard_montage "standard_1005");
  do '(events, _) <- events_of raw;
  do r <- read_raw raw;
  let stim_channel := np_zeros 1 (n_times r) in
  do stim_channel <-
    for_each events
      (fun stim_channel event =>
         lift (np_setitem stim_channel 0 (ev_sample event) (of_int (ev_code event))))
      stim_channel;
  let info := create_info ["STI 014"] (sfreq r) ["stim"] in
  do raw <- add_channels raw [RawArray stim_channel info];
  ret raw.

Definition _get_single_subject_data (self : PhysionetMI) (subject : Z)
    : M (gmap string (gmap string ref)) :=
  let data : gmap string ref := ∅ in
  do cfg <- get_config CONFIG_KEY;
  do _ <- (match cfg with
           | None => set_config CONFIG_KEY (osp_join home "mne_data")
           | Some _ => ret tt
           end);
  do raw <- _load_one_run self subject 1 true;
  let data := <["baseline_eye_open" := raw]> data in
  do raw <- _load_one_run self subject 2 true;
  let data := <["baseline_eye_closed" := raw]> data in
  do data <-
    for_each (hand_runs self)
      (fun data run =>
         do raw <- _load_one_run self subject run true;
         ret (<[run_label run := raw]> data))
      data;
  do data <-
    for_each (feet_runs self)
      (fun data run =>
         do raw <- _load_one_run self subject run true;
         do stim <- data_row raw (-1);
         do mask <- view_eq stim 2;
         do _ <- data_setitem_where raw (-1) mask 4;
         do mask <- view_eq stim 3;
         do _ <- data_setitem_where raw (-1) mask 5;
         ret (<[run_label run := raw]> data))
      data;
  ret {["session_0" := data]}.

Definition data_path (self : PhysionetMI) (subject : Z) (path : option string)
    (force_update : bool) (update_path : option bool) (verbose : verbosity)
    : M (list string) :=
  if negb (bool_decide (subject ∈ subject_list self))
  then raise (ValueError "Invalid subject number")
  else
    do cfg <- get_config CONFIG_KEY;
    do _ <- (match cfg with
             | None => set_config CONFIG_KEY (osp_join home "mne_data")
             | Some _ => ret tt
             end);
    do paths <- load_data subject ([1; 2] ++ hand_runs self ++ feet_runs self) verbose None;
    ret paths.

(** *** Vocabulary of the statements *)

(** The configuration after the check-and-set of lines 96-98. *)
Definition ensure_config (c : gmap string string) : gmap string string :=
  match c !! CONFIG_KEY with
  | None => <[CONFIG_KEY := osp_join home "mne_data"]> c
  | Some _ => c
  end.

(** The request [_load_one_run] makes for a run. *)
Definition run_request (subject run : Z) : request :=
  mkRequest subject [run] (VStr "ERROR") (Some BASE_URL).

(** The decoded recording after the three renamings and the montage. *)
Definition prepared (raw0 : Raw sample) : Raw sample :=
  with_montage "standard_1005"
    (with_ch_names (ChannelNames.normalize_name <$> ch_names raw0) raw0).

(** The zero row of [n] samples with the events written into it. *)
Definition stim_row (n : nat) (events : list event) : list sample :=
  foldl (fun row e => <[Z.to_nat (ev_sample e) := of_int (ev_code e)]> row)
    (replicate n (of_int 0)) events.

(** The recording with its marker channel. *)
Definition with_stim (raw0 : Raw sample) (events : list event) : Raw sample :=
  with_channels
    [RawArray [stim_row (n_times raw0) events]
       (create_info ["STI 014"] (sfreq raw0) ["stim"])]
    (prepared raw0).

(** The library serves the run: the download yields a file, the file
    decodes to [raw0], the library accepts the renamings, the montage and
    the added channel, and the annotations decode to [events]. *)
Definition library_serves (cfg : option string) (subject run : Z)
    (raw0 : Raw sample) (events : list event) : Prop :=
  let n0 := ch_names raw0 in
  let n1 := ChannelNames.strip_dots <$> n0 in
  let n2 := ChannelNames.upper <$> n1 in
  let n3 := ChannelNames.rename_by ChannelNames.canonical_names <$> n2 in
  (exists fname rest,
      eegbci_load_data cfg subject [run] (VStr "ERROR") (Some BASE_URL)
      = Ok (fname :: rest)
      /\ read_raw_edf fname true (VStr "ERROR") = Ok raw0)
  /\ mne_accepts (CallRename n0 n1) = true
  /\ mne_accepts (CallRename n1 n2) = true
  /\ mne_accepts (CallRenameDict ChannelNames.canonical_names n2) = true
  /\ mne_accepts (CallSetMontage "standard_1005" n3) = true
  /\ (exists ids, events_from_annotations (prepared raw0) = (events, ids))
  /\ mne_accepts
       (CallAddChannels (prepared raw0)
          [RawArray [stim_row (n_times raw0) events]
             (create_info ["STI 014"] (sfreq raw0) ["stim"])]) = true.

(** The event offsets lie in [[0, n)]. *)
Definition offsets_in_range (n : nat) (events : list event) : Prop :=
  Forall (fun e => 0 <= ev_sample e < Z.of_nat n) events.

(** What the two masked assignments of lines 143-144 make of a sample. *)
Definition remap_code (x : sample) : sample :=
  if bool_decide (x = of_int 2) then of_int 4
  else if bool_decide (x = of_int 3) then of_int 5
  else x.

(** A recording whose last row went through [remap_code]. *)
Definition remapped (r : Raw sample) : Raw sample :=
  match np_index (length (_data r)) (-1) with
  | Some k =>
      match _data r !! k with
      | Some row => with_data (<[k := remap_code <$> row]> (_data r)) r
      | None => r
      end
  | None => r
  end.

(** One entry of a subject's session: its label, its run, and whether it
    is a feet run. *)
Record entry : Type := mkEntry {
  entry_label : string;
  entry_run : Z;
  entry_feet : bool
}.

(** The entries of a subject's session, in the order of the loads: the
    two baseline runs, the hand runs, the feet runs. *)
Definition session_plan (self : PhysionetMI) : list entry :=
  [mkEntry "baseline_eye_open" 1 false; mkEntry "baseline_eye_closed" 2 false]
  ++ ((fun run => mkEntry (run_label run) run false) <$> hand_runs self)
  ++ ((fun run => mkEntry (run_label run) run true) <$> feet_runs self).

(** The labels of the session mapping, in the order of the loads. *)
Definition run_labels (self : PhysionetMI) : list string :=
  entry_label <$> session_plan self.

(** The runs of a subject, in the order of the loads. *)
Definition loaded_runs (self : PhysionetMI) : list Z :=
  entry_run <$> session_plan self.

(** Storing references [p], [p+1], ... under the labels, in order. *)
Fixpoint store_labels (p : ref) (labels : list string) (data : gmap string ref)
    : gmap string ref :=
  match labels with
  | [] => data
  | label :: labels' => store_labels (S p) labels' (<[label := p]> data)
  end.

(** The session mapping when the first new object is [p]. *)
Definition session_data (self : PhysionetMI) (p : ref) : gmap string ref :=
  store_labels p (run_labels self) ∅.

(** The object stored for an entry: the recording with its marker
    channel, remapped for a feet run. *)
Definition entry_object (raw0 : Z -> Raw sample) (events : Z -> list event)
    (e : entry) : Raw sample :=
  let r := with_stim (raw0 (entry_run e)) (events (entry_run e)) in
  if entry_feet e then remapped r else r.

(** The objects a subject's fetch adds to the store. *)
Definition session_objects (self : PhysionetMI)
    (raw0 : Z -> Raw sample) (events : Z -> list event) : list (Raw sample) :=
  entry_object raw0 events <$> session_plan self.

(** The codes of the declared event vocabulary. *)
Definition declared_codes (self : PhysionetMI) : list Z := snd <$> event_id self.

(** The library serves every run of the subject, with event offsets
    inside each recording: [raw0] and [events] give, per run, the decoded
    recording and its decoded events. *)
Definition serves_subject (self : PhysionetMI) (subject : Z) (w : world)
    (raw0 : Z -> Raw sample) (events : Z -> list event) : Prop :=
  forall run, run ∈ loaded_runs self ->
    library_serves (ensure_config (config w) !! CONFIG_KEY) subject run
      (raw0 run) (events run)
    /\ offsets_in_range (n_times (raw0 run)) (events run).

(** A computation that leaves the configuration as it is once the cache
    directory is configured. *)
Definition config_stable {A : Type} (c : M A) : Prop :=
  forall w, config w !! CONFIG_KEY <> None -> config (c w).2 = config w.

(** A computation that leaves a component [f] of the state as it is. *)
Definition preserves {A X : Type} (f : world -> X) (c : M A) : Prop :=
  forall w, f (c w).2 = f w.

(** A component of the state that does not depend on the store. *)
Definition ignores_heap {X : Type} (f : world -> X) : Prop :=
  forall c q h h', f (mkWorld c q h) = f (mkWorld c q h').


(** *** The effects of the library on the configuration *)

(** What [set_config] and [load_data] above idealise: [mne.set_config]
    writes the configuration file and can raise, and [eegbci.load_data]
    can rewrite the configuration (its own path key).  The two members
    are the error of a [set_config(key, value)] in a configuration, if
    it raises, and the configuration a download leaves. *)
Record config_effects : Type := mkEffects {
  set_config_error : gmap string string -> string -> string -> option exn;
  load_data_rewrite :
    gmap string string -> Z -> list Z -> verbosity -> option string ->
    gmap string string
}.

(** [set_config(key, value)] that can raise; nothing is written then. *)
Definition set_config_io (fx : config_effects) (key value : string) : M unit :=
  fun w =>
    match set_config_error fx (config w) key value with
    | Some e => (Raise e, w)
    | None => set_config key value w
    end.

(** [eegbci.load_data(...)] that can rewrite the configuration. *)
Definition load_data_io (fx : config_effects) (subject : Z) (runs : list Z)
    (verbose : verbosity) (base_url : option string) : M (list string) :=
  fun w =>
    (eegbci_load_data (config w !! CONFIG_KEY) subject runs verbose base_url,
     mkWorld (load_data_rewrite fx (config w) subject runs verbose base_url)
       (requests w ++ [mkRequest subject runs verbose base_url]) (heap w)).

(** The three methods, over the two primitives [set_config] and
    [eegbci.load_data]; statement for statement those above. *)
Definition load_one_run_over
    (set_cfg : string -> string -> M unit)
    (load : Z -> list Z -> verbosity -> option string -> M (list string))
    (self : PhysionetMI) (subject run : Z) (preload : bool) : M ref :=
  do cfg <- get_config CONFIG_KEY;
  do _ <- (match cfg with
           | None => set_cfg CONFIG_KEY (osp_join home "mne_data")
           | Some _ => ret tt
           end);
  do paths <- load subject [run] (VStr "ERROR") (Some BASE_URL);
  do raw_fname <- getitem0 paths;
  do raw <- read_raw_edf_new raw_fname preload (VStr "ERROR");
  do _ <- rename_channels raw ChannelNames.strip_dots;
  do _ <- rename_channels raw ChannelNames.upper;
  do _ <- rename_channels_dict raw ChannelNames.canonical_names;
  do _ <- set_montage raw (make_standard_montage "standard_1005");
  do '(events, _) <- events_of raw;
  do r <- read_raw raw;
  let stim_channel := np_zeros 1 (n_times r) in
  do stim_channel <-
    for_each events
      (fun stim_channel event =>
         lift (np_setitem stim_channel 0 (ev_sample event) (of_int (ev_code event))))
      stim_channel;
  let info := create_info ["STI 014"] (sfreq r) ["stim"] in
  do raw <- add_channels raw [RawArray stim_channel info];
  ret raw.

Definition get_single_subject_data_over
    (set_cfg : string -> string -> M unit)
    (load : Z -> list Z -> verbosity -> option string -> M (list string))
    (self : PhysionetMI) (subject : Z) : M (gmap string (gmap string ref)) :=
  let data : gmap string ref := ∅ in
  do cfg <- get_config CONFIG_KEY;
  do _ <- (match cfg with
           | None => set_cfg CONFIG_KEY (osp_join home "mne_data")
           | Some _ => ret tt
           end);
  do raw <- load_one_run_over set_cfg load self subject 1 true;
  let data := <["baseline_eye_open" := raw]> data in
  do raw <- load_one_run_over set_cfg load self subject 2 true;
  let data := <["baseline_eye_closed" := raw]> data in
  do data <-
    for_each (hand_runs self)
      (fun data run =>
         do raw <- load_one_run_over set_cfg load self subject run true;
         ret (<[run_label run := raw]> data))
      data;
  do data <-
    for_each (feet_runs self)
      (fun data run =>
         do raw <- load_one_run_over set_cfg load self subject run true;
         do stim <- data_row raw (-1);
         do mask <- view_eq stim 2;
         do _ <- data_setitem_where raw (-1) mask 4;
         do mask <- view_eq stim 3;
         do _ <- data_setitem_where raw (-1) mask 5;
         ret (<[run_label run := raw]> data))
      data;
  ret {["session_0" := data]}.

Definition data_path_over
    (set_cfg : string -> string -> M unit)
    (load : Z -> list Z -> verbosity -> option string -> M (list string))
    (self : PhysionetMI) (subject : Z) (path : option string)
    (force_update : bool) (update_path : option bool) (verbose : verbosity)
    : M (list string) :=
  if negb (bool_decide (subject ∈ subject_list self))
  then raise (ValueError "Invalid subject number")
  else
    do cfg <- get_config CONFIG_KEY;
    do _ <- (match cfg with
             | None => set_cfg CONFIG_KEY (osp_join home "mne_data")
             | Some _ => ret tt
             end);
    do paths <- load subject ([1; 2] ++ hand_runs self ++ feet_runs self) verbose None;
    ret paths.

(** The methods with the effects of the library on the configuration. *)
Definition load_one_run_io (fx : config_effects) :=
  load_one_run_over (set_config_io fx) (load_data_io fx).

Definition get_single_subject_data_io (fx : config_effects) :=
  get_single_subject_data_over (set_config_io fx) (load_data_io fx).

Definition data_path_io (fx : config_effects) :=
  data_path_over (set_config_io fx) (load_data_io fx).

(** The library of the idealisation: [set_config] succeeds and a
    download leaves the configuration as it is. *)
Definition ideal_effects : config_effects :=
  mkEffects (fun _ _ _ => None) (fun c _ _ _ _ => c).



(** A computation that, started in a store of at least [n] objects,
    leaves the first [n] as they are, and whose result, if any,
    satisfies [Q]. *)
Definition keeps_objects {A : Type} (n : nat) (c : M A) (Q : A -> Prop) : Prop :=
  forall w, (n <= length (heap w))%nat ->
    take n (heap (c w).2) = take n (heap w)
    /\ forall a, (c w).1 = Ok a -> Q a.

(** What [_get_single_subject_data] does for one entry of the plan: the
    statements of lines 129 and 130, of the body of the loop of line 133
    and of the body of the loop of line 137, by the kind of the entry. *)
Definition store_entry (self : PhysionetMI) (subject : Z)
    (data : gmap string ref) (e : entry) : M (gmap string ref) :=
  do raw <- _load_one_run self subject (entry_run e) true;
  if entry_feet e
  then
    (do stim <- data_row raw (-1);
     do mask <- view_eq stim 2;
     do _ <- data_setitem_where raw (-1) mask 4;
     do mask <- view_eq stim 3;
     do _ <- data_setitem_where raw (-1) mask 5;
     ret (<[entry_label e := raw]> data))
  else ret (<[entry_label e := raw]> data).

(** The library serves the run up to the decoding of its events: the
    download, the decoding of the file, the renamings and the montage. *)
Definition library_decodes (cfg : option string) (subject run : Z)
    (raw0 : Raw sample) (events : list event) : Prop :=
  let n0 := ch_names raw0 in
  let n1 := ChannelNames.strip_dots <$> n0 in
  let n2 := ChannelNames.upper <$> n1 in
  let n3 := ChannelNames.rename_by ChannelNames.canonical_names <$> n2 in
  (exists fname rest,
      eegbci_load_data cfg subject [run] (VStr "ERROR") (Some BASE_URL)
      = Ok (fname :: rest)
      /\ read_raw_edf fname true (VStr "ERROR") = Ok raw0)
  /\ mne_accepts (CallRename n0 n1) = true
  /\ mne_accepts (CallRename n1 n2) = true
  /\ mne_accepts (CallRenameDict ChannelNames.canonical_names n2) = true
  /\ mne_accepts (CallSetMontage "standard_1005" n3) = true
  /\ (exists ids, events_from_annotations (prepared raw0) = (events, ids)).

(** An offset numpy accepts for an axis of length [n]: from [-n] to
    [n - 1]. *)
Definition offset_indexable (n : nat) (e : event) : Prop :=
  - Z.of_nat n <= ev_sample e < Z.of_nat n.

End Adapter.

(** ** A concrete library, for evaluating the adapter *)

Module Example.

(** A three-channel recording of six samples, with the dotted channel
    names of the archive's files. *)
Definition recording : Raw Z :=
  mkRaw ["Fz.."; "C3.."; "Iz.."] ["eeg"; "eeg"; "eeg"] 160
    [[10; 11; 12; 13; 14; 15]; [20; 21; 22; 23; 24; 25]; [30; 31; 32; 33; 34; 35]]
    6 [(0, 1, "T0"); (2, 1, "T1"); (4, 1, "T2")] None.

Definition decoded_events : list event :=
  [mkEvent 0 0 1; mkEvent 2 0 2; mkEvent 4 0 3].

Definition edf_path (cfg : option string) (subject run : Z) : string :=
  default "" cfg +:+ "/S" +:+ format_d subject +:+ "R" +:+ format_d run +:+ ".edf".

#[local] Instance library : Mne := {|
  sample := Z;
  sample_eq_dec := Z.eq_dec;
  of_int := fun z => z;
  home := "/home/user";
  eegbci_load_data := fun cfg subject runs _ _ => Ok (edf_path cfg subject <$> runs);
  read_raw_edf := fun _ _ _ => Ok recording;
  events_from_annotations :=
    fun _ => (decoded_events, [("T0", 1); ("T1", 2); ("T2", 3)]);
  mne_accepts := fun _ => true;
  of_int_inj := fun a b _ _ H => H
|}.

(** A world with nothing configured, nothing requested and no object. *)
Definition fresh : world := mkWorld ∅ [] [].

(** A world where the cache directory is already configured. *)
Definition configured : world :=
  mkWorld {[CONFIG_KEY := "/data/eegbci"]} [] [].

(** A world that already holds a recording object. *)
Definition occupied : world := mkWorld ∅ [] [recording].

End Example.

(** ** Libraries that fail, for evaluating the error paths *)

Module Faulty.

(** A library given by its download, its decoder and the events it
    decodes; it accepts every call. *)
Definition custom
    (download : option string -> Z -> list Z -> result (list string))
    (decode : string -> result (Raw Z)) (evs : list event) : Mne := {|
  sample := Z;
  sample_eq_dec := Z.eq_dec;
  of_int := fun z => z;
  home := "/home/user";
  eegbci_load_data := fun cfg subject runs _ _ => download cfg subject runs;
  read_raw_edf := fun fname _ _ => decode fname;
  events_from_annotations := fun _ => (evs, []);
  mne_accepts := fun _ => true;
  of_int_inj := fun a b _ _ H => H
|}.

Definition download_ok (cfg : option string) (subject : Z) (runs : list Z)
    : result (list string) :=
  Ok (Example.edf_path cfg subject <$> runs).

Definition decode_ok (fname : string) : result (Raw Z) := Ok Example.recording.

(** The archive is unreachable. *)
Definition offline : Mne :=
  custom (fun _ _ _ => Raise (LibraryError "HTTP Error 404")) decode_ok
    Example.decoded_events.

(** The download yields no file. *)
Definition no_file : Mne :=
  custom (fun _ _ _ => Ok []) decode_ok Example.decoded_events.

(** The files are not EDF files. *)
Definition corrupt : Mne :=
  custom download_ok (fun _ => Raise (LibraryError "not an EDF file"))
    Example.decoded_events.

(** Run 8 is missing upstream. *)
Definition run_8_missing : Mne :=
  custom
    (fun cfg subject runs =>
       if bool_decide (8 ∈ runs) then Raise (LibraryError "HTTP Error 404")
       else download_ok cfg subject runs)
    decode_ok Example.decoded_events.

(** An event lies one sample past the end of the recording. *)
Definition late_event : Mne :=
  custom download_ok decode_ok [mkEvent 0 0 1; mkEvent 6 0 2].

(** Two events share an offset. *)
Definition repeated_offset : Mne :=
  custom download_ok decode_ok [mkEvent 2 0 2; mkEvent 4 0 1; mkEvent 2 0 3].

Definition fresh (lib : Mne) : world := mkWorld ∅ [] [].

(** A dataset object whose run lists were reassigned so that run 6 is
    both a hand and a feet run. *)
Definition doubled : PhysionetMI :=
  mkPhysionetMI (range 1 110)
    [("left_hand", 2); ("right_hand", 3); ("feet", 5); ("hands", 4); ("rest", 1)]
    [6] [6].




End Faulty.

(** ** Properties of the channel-name normalization *)

Section ChannelNameFacts.
Import ChannelNames.

Lemma upper_char_idem (c : ascii) : upper_char (upper_char c) = upper_char c.
Proof. destruct c as [[] [] [] [] [] [] [] []]; reflexivity. Qed.

Lemma upper_char_dot (c : ascii) :
  Ascii.eqb (upper_char c) dot = Ascii.eqb c dot.
Proof. destruct c as [[] [] [] [] [] [] [] []]; reflexivity. Qed.

Lemma upper_idem (s : string) : upper (upper s) = upper s.
Proof.
  induction s as [|c s IH]; simpl; [reflexivity|].
  now rewrite upper_char_idem, IH.
Qed.

Lemma lstrip_upper (s : string) : lstrip_dots (upper s) = upper (lstrip_dots s).
Proof.
  induction s as [|c s IH]; simpl; [reflexivity|].
  rewrite upper_char_dot. destruct (Ascii.eqb c dot); [exact IH | reflexivity].
Qed.

Lemma rstrip_upper (s : string) : rstrip_dots (upper s) = upper (rstrip_dots s).
Proof.
  induction s as [|c s IH]; simpl; [reflexivity|].
  rewrite IH. destruct (rstrip_dots s) as [|c' t]; simpl.
  - rewrite upper_char_dot. destruct (Ascii.eqb c dot); reflexivity.
  - reflexivity.
Qed.

Lemma strip_upper (s : string) : strip_dots (upper s) = upper (strip_dots s).
Proof. unfold strip_dots. now rewrite lstrip_upper, rstrip_upper. Qed.

Lemma lstrip_no_leading (s : string) : starts_with_dot (lstrip_dots s) = false.
Proof.
  induction s as [|c s IH]; simpl; [reflexivity|].
  destruct (Ascii.eqb c dot) eqn:E; [exact IH | simpl; exact E].
Qed.

Lemma lstrip_fixed (s : string) : starts_with_dot s = false -> lstrip_dots s = s.
Proof. destruct s as [|c s]; simpl; [reflexivity|]. now intros ->. Qed.

Lemma rstrip_keeps_start (s : string) :
  starts_with_dot s = false -> starts_with_dot (rstrip_dots s) = false.
Proof.
  destruct s as [|c s]; simpl; [reflexivity|]. intros E.
  destruct (rstrip_dots s); simpl; rewrite ?E; simpl; rewrite ?E; reflexivity.
Qed.

Lemma rstrip_no_trailing (s : string) : ends_with_dot (rstrip_dots s) = false.
Proof.
  induction s as [|c s IH]; simpl; [reflexivity|].
  destruct (rstrip_dots s) as [|c' t] eqn:E.
  - destruct (Ascii.eqb c dot) eqn:Ec; simpl; [reflexivity | exact Ec].
  - exact IH.
Qed.

Lemma rstrip_fixed (s : string) : ends_with_dot s = false -> rstrip_dots s = s.
Proof.
  induction s as [|c s IH]; simpl; [reflexivity|].
  destruct s as [|c' t].
  - simpl. now intros ->.
  - intros E. rewrite (IH E). reflexivity.
Qed.

Lemma strip_dots_idem (s : string) : strip_dots (strip_dots s) = strip_dots s.
Proof.
  unfold strip_dots.
  rewrite (lstrip_fixed (rstrip_dots (lstrip_dots s))).
  - apply rstrip_fixed, rstrip_no_trailing.
  - apply rstrip_keeps_start, lstrip_no_leading.
Qed.

Lemma case_normalize_idem (x : string) :
  case_normalize (case_normalize x) = case_normalize x.
Proof.
  unfold case_normalize.
  now rewrite strip_upper, strip_dots_idem, upper_idem.
Qed.

Lemma dict_get_In (d : list (string * string)) (k v : string) :
  dict_get d k = Some v -> In (k, v) d.
Proof.
  induction d as [|[k' v'] d IH]; simpl; [discriminate|].
  destruct (String.eqb k' k) eqn:E.
  - apply String.eqb_eq in E. intros [= ->]. left. now subst.
  - intros H. right. now apply IH.
Qed.

Lemma canonical_values_fixed :
  Forall (fun kv => normalize_name (snd kv) = snd kv) canonical_names.
Proof. repeat constructor. Qed.

Lemma append_cons (c : ascii) (a b : string) :
  String c a +:+ b = String c (a +:+ b).
Proof. reflexivity. Qed.

Lemma append_empty_l (b : string) : "" +:+ b = b.
Proof. reflexivity. Qed.

Lemma lstrip_split (s : string) : exists n, s = dots n +:+ lstrip_dots s.
Proof.
  induction s as [|c s [n IH]]; simpl.
  - now exists O.
  - destruct (Ascii.eqb c dot) eqn:E.
    + apply Ascii.eqb_eq in E. subst c. exists (S n). simpl.
      rewrite append_cons. f_equal. exact IH.
    + now exists O.
Qed.

Lemma rstrip_split (s : string) : exists m, s = rstrip_dots s +:+ dots m.
Proof.
  induction s as [|c s [m IH]]; simpl.
  - now exists O.
  - destruct (rstrip_dots s) as [|c' t] eqn:Es.
    + destruct (Ascii.eqb c dot) eqn:E.
      * apply Ascii.eqb_eq in E. subst c. exists (S m).
        rewrite append_empty_l in *. simpl. f_equal. exact IH.
      * exists m. rewrite append_cons. f_equal. exact IH.
    + exists m. rewrite append_cons. f_equal. exact IH.
Qed.

(** C5. The channel-name normalization (strip the dots, uppercase, apply
    the canonical-name table, unlisted names kept) is idempotent, on one
    name and so on the list of names of a recording. *)
Theorem normalize_name_idempotent :
  (forall x : string, normalize_name (normalize_name x) = normalize_name x)
  /\ (forall names : list string,
        normalize_name <$> (normalize_name <$> names) = normalize_name <$> names).
Proof.
  assert (H1 : forall x, normalize_name (normalize_name x) = normalize_name x).
  { intros x. unfold normalize_name at 2 3. unfold rename_by.
    destruct (dict_get canonical_names (upper (strip_dots x))) as [v|] eqn:E.
    - apply dict_get_In in E.
      pose proof canonical_values_fixed as HF.
      rewrite List.Forall_forall in HF. exact (HF _ E).
    - unfold normalize_name, rename_by.
      change (upper (strip_dots (upper (strip_dots x))))
        with (case_normalize (case_normalize x)).
      rewrite case_normalize_idem. unfold case_normalize. now rewrite E. }
  split; [exact H1|].
  intros names. rewrite <- list_fmap_compose.
  apply list_fmap_ext. intros _ x _. simpl. apply H1.
Qed.

(** C6, as the code has it.  The first renaming strips every leading and
    every trailing dot and keeps what lies between; the second uppercases
    that; the table is applied to the result. *)
Theorem case_normalize_strips_both_ends (x : string) :
  exists (n m : nat) (core : string),
    x = dots n +:+ core +:+ dots m
    /\ starts_with_dot core = false
    /\ ends_with_dot core = false
    /\ strip_dots x = core
    /\ case_normalize x = upper core
    /\ normalize_name x = rename_by canonical_names (case_normalize x).
Proof.
  destruct (lstrip_split x) as [n Hn].
  destruct (rstrip_split (lstrip_dots x)) as [m Hm].
  exists n, m, (strip_dots x). unfold case_normalize, normalize_name, strip_dots.
  repeat split.
  - now rewrite <- Hm.
  - apply rstrip_keeps_start, lstrip_no_leading.
  - apply rstrip_no_trailing.
Qed.

(** C6, as stated, fails: a leading dot is stripped too. *)
Lemma case_normalize_strips_leading_dot :
  case_normalize ".Fc5." = "FC5"
  /\ case_normalize_spec ".Fc5." = ".FC5"
  /\ ~ (forall x : string, case_normalize x = case_normalize_spec x).
Proof.
  split; [reflexivity|]. split; [reflexivity|].
  intros H. specialize (H ".Fc5."). discriminate H.
Qed.

(** *** Further properties of the normalization *)

Lemma lstrip_dots_prefix (n : nat) (s : string) :
  lstrip_dots (dots n +:+ s) = lstrip_dots s.
Proof.
  induction n as [|n IH]; [reflexivity|].
  simpl dots. rewrite append_cons. simpl. exact IH.
Qed.

Lemma rstrip_all_dots (m : nat) : rstrip_dots (dots m) = "".
Proof. induction m as [|m IH]; simpl; [reflexivity|]. now rewrite IH. Qed.

Lemma lstrip_all_dots (m : nat) : lstrip_dots (dots m) = "".
Proof. induction m as [|m IH]; simpl; [reflexivity|]. exact IH. Qed.

Lemma rstrip_dots_suffix (s : string) (m : nat) :
  rstrip_dots (s +:+ dots m) = rstrip_dots s.
Proof.
  induction s as [|c s IH].
  - rewrite append_empty_l. apply rstrip_all_dots.
  - rewrite append_cons. simpl. now rewrite IH.
Qed.

Lemma strip_dots_suffix (s : string) (m : nat) :
  strip_dots (s +:+ dots m) = strip_dots s.
Proof.
  unfold strip_dots. induction s as [|c s IH].
  - rewrite append_empty_l, lstrip_all_dots. reflexivity.
  - rewrite append_cons. simpl. destruct (Ascii.eqb c dot); [exact IH|].
    rewrite <- append_cons. apply rstrip_dots_suffix.
Qed.

Lemma strip_dots_surrounded (n m : nat) (s : string) :
  strip_dots (dots n +:+ s +:+ dots m) = strip_dots s.
Proof.
  unfold strip_dots at 1. rewrite lstrip_dots_prefix.
  apply strip_dots_suffix.
Qed.

Lemma canonical_values_upper :
  Forall (fun kv => upper (snd kv) = fst kv) canonical_names.
Proof. repeat constructor. Qed.

Lemma rename_only_case (y : string) :
  upper y = y -> upper (rename_by canonical_names y) = y.
Proof.
  intros Hy. unfold rename_by.
  destruct (dict_get canonical_names y) as [v|] eqn:E; [|exact Hy].
  apply dict_get_In in E. pose proof canonical_values_upper as HF.
  rewrite List.Forall_forall in HF. exact (HF _ E).
Qed.

Lemma case_normalize_upper (x : string) : upper (case_normalize x) = case_normalize x.
Proof. unfold case_normalize. apply upper_idem. Qed.

(** X1. Two names that differ only in the case of their letters and in
    dots around them get the same normalized name. *)
Theorem normalize_name_ignores_case_and_outer_dots (x y : string) (n m : nat) :
  upper x = upper y ->
  normalize_name (dots n +:+ x +:+ dots m) = normalize_name y.
Proof.
  intros H. unfold normalize_name.
  rewrite strip_dots_surrounded, <- !strip_upper, H. reflexivity.
Qed.

(** X2. The canonical-name table changes only the case of letters: the
    uppercase of a normalized name is the name after the first two
    renamings.  So two names get the same normalized name exactly when
    they agree after the first two renamings, and the third renaming
    keeps distinct names distinct. *)
Theorem canonical_table_changes_only_case :
  (forall x : string, upper (normalize_name x) = case_normalize x)
  /\ (forall x y : string,
        normalize_name x = normalize_name y <-> case_normalize x = case_normalize y)
  /\ (forall names : list string,
        NoDup (case_normalize <$> names) -> NoDup (normalize_name <$> names)).
Proof.
  assert (H1 : forall x, upper (normalize_name x) = case_normalize x).
  { intros x. apply (rename_only_case (case_normalize x)), case_normalize_upper. }
  assert (H2 : forall x y,
             normalize_name x = normalize_name y -> case_normalize x = case_normalize y).
  { intros x y H. rewrite <- (H1 x), <- (H1 y). now rewrite H. }
  split; [exact H1|]. split.
  - intros x y. split; [apply H2|].
    unfold normalize_name, case_normalize. now intros ->.
  - intros names Hnd.
    change (normalize_name <$> names)
      with ((fun x => rename_by canonical_names (case_normalize x)) <$> names).
    rewrite (list_fmap_compose case_normalize (rename_by canonical_names)).
    apply NoDup_fmap_2_strong; [|exact Hnd].
    intros u v Hu Hv Huv.
    apply list_elem_of_fmap_1 in Hu as (a & -> & _).
    apply list_elem_of_fmap_1 in Hv as (b & -> & _).
    now apply H2.
Qed.

End ChannelNameFacts.

(** ** Properties of the adapter *)

Section AdapterFacts.
Context `{lib : Mne}.

(** *** The configuration check *)

Lemma stable_ret {A : Type} (a : A) : config_stable (ret a).
Proof. intros w _. reflexivity. Qed.

Lemma stable_raise {A : Type} (e : exn) : config_stable (raise (A := A) e).
Proof. intros w _. reflexivity. Qed.

Lemma stable_lift {A : Type} (r : result A) : config_stable (lift r).
Proof. intros w _. reflexivity. Qed.

Lemma stable_bind {A B : Type} (c : M A) (k : A -> M B) :
  config_stable c -> (forall a, config_stable (k a)) -> config_stable (bind c k).
Proof.
  intros Hc Hk w Hw. unfold bind.
  specialize (Hc w Hw). destruct (c w) as [[a|e] w1]; simpl in *.
  - rewrite <- Hc. apply Hk. now rewrite Hc.
  - exact Hc.
Qed.

Lemma stable_for_each {A S : Type} (xs : list A) (body : S -> A -> M S) (s : S) :
  (forall s x, config_stable (body s x)) -> config_stable (for_each xs body s).
Proof.
  intros Hb. revert s. induction xs as [|x xs IH]; intros s; simpl.
  - apply stable_ret.
  - apply stable_bind; [apply Hb | intros s'; apply IH].
Qed.

Lemma stable_get_config (key : string) : config_stable (get_config key).
Proof. intros w _. reflexivity. Qed.

Lemma stable_new_raw (r : Raw sample) : config_stable (new_raw r).
Proof. intros w _. reflexivity. Qed.

Lemma stable_read_raw (p : ref) : config_stable (read_raw p).
Proof. intros w _. unfold read_raw. now destruct (heap w !! p). Qed.

Lemma stable_modify_raw (p : ref) (f : Raw sample -> Raw sample) :
  config_stable (modify_raw p f).
Proof. intros w _. reflexivity. Qed.

Lemma stable_load_data subject runs verbose base_url :
  config_stable (load_data subject runs verbose base_url).
Proof. intros w _. reflexivity. Qed.

Lemma stable_getitem0 (paths : list string) : config_stable (getitem0 paths).
Proof. destruct paths; [apply stable_raise | apply stable_ret]. Qed.

Create HintDb stable discriminated.
#[local] Hint Resolve stable_ret stable_raise stable_lift stable_get_config
  stable_new_raw stable_read_raw stable_modify_raw stable_load_data
  stable_getitem0 : stable.

(** Splits a computation along its binds and its case distinctions. *)
Ltac stable_step :=
  lazymatch goal with
  | |- config_stable (bind _ _) => apply stable_bind; [| intros ?]
  | |- config_stable (for_each _ _ _) => apply stable_for_each; intros ? ?
  | |- config_stable (match ?x with _ => _ end) => destruct x
  | |- config_stable (let '(_, _) := ?x in _) => destruct x
  | |- _ => solve [auto with stable]
  end.
Ltac stable := repeat stable_step.

Lemma stable_read_raw_edf_new fname preload verbose :
  config_stable (read_raw_edf_new fname preload verbose).
Proof. unfold read_raw_edf_new. stable. Qed.

Lemma stable_rename_channels p f : config_stable (rename_channels p f).
Proof. unfold rename_channels. stable. Qed.

Lemma stable_rename_channels_dict p d : config_stable (rename_channels_dict p d).
Proof. unfold rename_channels_dict. stable. Qed.

Lemma stable_set_montage p m : config_stable (set_montage p m).
Proof. unfold set_montage. stable. Qed.

Lemma stable_events_of p : config_stable (events_of p).
Proof. unfold events_of. stable. Qed.

Lemma stable_add_channels p others : config_stable (add_channels p others).
Proof. unfold add_channels. stable. Qed.

Lemma stable_data_row p i : config_stable (data_row p i).
Proof. unfold data_row. stable. Qed.

Lemma stable_view_eq v c : config_stable (view_eq v c).
Proof. unfold view_eq. stable. Qed.

Lemma stable_data_setitem_where p i mask c :
  config_stable (data_setitem_where p i mask c).
Proof. unfold data_setitem_where. stable. Qed.

#[local] Hint Resolve stable_read_raw_edf_new stable_rename_channels
  stable_rename_channels_dict stable_set_montage stable_events_of
  stable_add_channels stable_data_row stable_view_eq
  stable_data_setitem_where : stable.

Lemma ensure_config_set (c : gmap string string) :
  ensure_config c !! CONFIG_KEY <> None.
Proof.
  unfold ensure_config. destruct (c !! CONFIG_KEY) eqn:E.
  - now rewrite E.
  - now rewrite lookup_insert_eq.
Qed.

Lemma ensure_config_when_set (c : gmap string string) :
  c !! CONFIG_KEY <> None -> ensure_config c = c.
Proof. unfold ensure_config. now destruct (c !! CONFIG_KEY). Qed.

(** The check-and-set block followed by a stable continuation. *)
Lemma ensure_block {A : Type} (k : unit -> M A) (w : world) :
  (forall u, config_stable (k u)) ->
  config
    (bind (get_config CONFIG_KEY)
       (fun cfg =>
          bind (match cfg with
                | None => set_config CONFIG_KEY (osp_join home "mne_data")
                | Some _ => ret tt
                end) k) w).2
  = ensure_config (config w).
Proof.
  intros Hk. unfold bind at 1, get_config. unfold ensure_config.
  destruct (config w !! CONFIG_KEY) as [p|] eqn:E; unfold bind, ret, set_config.
  - apply Hk. now rewrite E.
  - rewrite Hk; [reflexivity|]. simpl. now rewrite lookup_insert_eq.
Qed.

Lemma stable_of_ensure {A : Type} (c : M A) :
  (forall w, config (c w).2 = ensure_config (config w)) -> config_stable c.
Proof. intros H w Hw. rewrite H. now apply ensure_config_when_set. Qed.

Lemma load_one_run_config self subject run preload w :
  config (_load_one_run self subject run preload w).2 = ensure_config (config w).
Proof. unfold _load_one_run. apply ensure_block. intros _. stable. Qed.

Lemma stable_load_one_run self subject run preload :
  config_stable (_load_one_run self subject run preload).
Proof. apply stable_of_ensure. intros w. apply load_one_run_config. Qed.

#[local] Hint Resolve stable_load_one_run : stable.

Lemma get_single_subject_data_config self subject w :
  config (_get_single_subject_data self subject w).2 = ensure_config (config w).
Proof. unfold _get_single_subject_data. apply ensure_block. intros _. stable. Qed.

(** *** One step of a computation *)

Lemma bind_ok {A B : Type} (c : M A) (k : A -> M B) (w w' : world) (a : A) :
  c w = (Ok a, w') -> bind c k w = k a w'.
Proof. intros H. unfold bind. now rewrite H. Qed.

Lemma ensure_step {A : Type} (k : unit -> M A) (w : world) :
  bind (get_config CONFIG_KEY)
    (fun cfg =>
       bind (match cfg with
             | None => set_config CONFIG_KEY (osp_join home "mne_data")
             | Some _ => ret tt
             end) k) w
  = k tt (mkWorld (ensure_config (config w)) (requests w) (heap w)).
Proof.
  destruct w as [c q h]. unfold bind, get_config, ensure_config. simpl.
  destruct (c !! CONFIG_KEY); reflexivity.
Qed.

(** *** The newest object of the store *)

Lemma lookup_newest {A : Type} (h : list A) (r : A) : (h ++ [r]) !! length h = Some r.
Proof. now apply list_lookup_middle. Qed.

Lemma lookup_newest_app {A : Type} (h k : list A) (r : A) :
  (h ++ r :: k) !! length h = Some r.
Proof. now apply list_lookup_middle. Qed.

Lemma alter_newest {A : Type} (f : A -> A) (h : list A) (r : A) :
  alter f (length h) (h ++ [r]) = h ++ [f r].
Proof.
  rewrite alter_app_r_alt by lia. now rewrite Nat.sub_diag.
Qed.

Lemma read_raw_newest c q (h : list (Raw sample)) r :
  read_raw (length h) (mkWorld c q (h ++ [r])) = (Ok r, mkWorld c q (h ++ [r])).
Proof. unfold read_raw. simpl. now rewrite lookup_newest. Qed.

Lemma modify_raw_newest c q (h : list (Raw sample)) r f :
  modify_raw (length h) f (mkWorld c q (h ++ [r]))
  = (Ok tt, mkWorld c q (h ++ [f r])).
Proof. unfold modify_raw. simpl. now rewrite alter_newest. Qed.

Lemma rename_channels_newest c q (h : list (Raw sample)) r f :
  mne_accepts (CallRename (ch_names r) (f <$> ch_names r)) = true ->
  rename_channels (length h) f (mkWorld c q (h ++ [r]))
  = (Ok tt, mkWorld c q (h ++ [with_ch_names (f <$> ch_names r) r])).
Proof.
  intros H. unfold rename_channels.
  rewrite (bind_ok _ _ _ _ _ (read_raw_newest c q h r)).
  rewrite H. apply modify_raw_newest.
Qed.

Lemma rename_channels_dict_newest c q (h : list (Raw sample)) r d :
  mne_accepts (CallRenameDict d (ch_names r)) = true ->
  rename_channels_dict (length h) d (mkWorld c q (h ++ [r]))
  = (Ok tt,
     mkWorld c q (h ++ [with_ch_names (ChannelNames.rename_by d <$> ch_names r) r])).
Proof.
  intros H. unfold rename_channels_dict.
  rewrite (bind_ok _ _ _ _ _ (read_raw_newest c q h r)).
  rewrite H. apply modify_raw_newest.
Qed.

Lemma set_montage_newest c q (h : list (Raw sample)) r m :
  mne_accepts (CallSetMontage m (ch_names r)) = true ->
  set_montage (length h) m (mkWorld c q (h ++ [r]))
  = (Ok tt, mkWorld c q (h ++ [with_montage m r])).
Proof.
  intros H. unfold set_montage.
  rewrite (bind_ok _ _ _ _ _ (read_raw_newest c q h r)).
  rewrite H. apply modify_raw_newest.
Qed.

Lemma add_channels_newest c q (h : list (Raw sample)) r others :
  mne_accepts (CallAddChannels r others) = true ->
  add_channels (length h) others (mkWorld c q (h ++ [r]))
  = (Ok (length h), mkWorld c q (h ++ [with_channels others r])).
Proof.
  intros H. unfold add_channels.
  rewrite (bind_ok _ _ _ _ _ (read_raw_newest c q h r)).
  rewrite H.
  now rewrite (bind_ok _ _ _ _ _ (modify_raw_newest c q h r (with_channels others))).
Qed.

(** *** The marker channel *)

Lemma np_index_in_range (len : nat) (i : Z) :
  0 <= i < Z.of_nat len -> np_index len i = Some (Z.to_nat i).
Proof.
  intros [H1 H2]. unfold np_index.
  now rewrite (proj2 (Z.leb_le 0 i) H1), (proj2 (Z.ltb_lt i _) H2).
Qed.

Lemma np_index_last (len : nat) : np_index (S len) (-1) = Some len.
Proof.
  unfold np_index.
  replace (0 <=? -1) with false by reflexivity. simpl andb.
  replace (-1 <? 0) with true by reflexivity.
  rewrite (proj2 (Z.leb_le (- Z.of_nat (S len)) (-1))) by lia.
  simpl. f_equal. lia.
Qed.

Lemma write_events_ok (events : list event) (row : list sample) (w : world) :
  offsets_in_range (length row) events ->
  for_each events
    (fun stim_channel event =>
       lift (np_setitem stim_channel 0 (ev_sample event) (of_int (ev_code event))))
    [row] w
  = (Ok [foldl (fun row e => <[Z.to_nat (ev_sample e) := of_int (ev_code e)]> row)
           row events], w).
Proof.
  revert row. induction events as [|e events IH]; intros row Hr; simpl.
  - reflexivity.
  - inversion Hr as [|? ? He Hes]; subst.
    assert (Hstep : np_setitem [row] 0 (ev_sample e) (of_int (ev_code e))
                    = Ok [<[Z.to_nat (ev_sample e) := of_int (ev_code e)]> row]).
    { unfold np_setitem. simpl. now rewrite (np_index_in_range _ _ He). }
    unfold bind, lift. rewrite Hstep. apply IH.
    now rewrite length_insert.
Qed.

Lemma stim_row_length (n : nat) (events : list event) :
  length (stim_row n events) = n.
Proof.
  unfold stim_row. generalize (replicate n (of_int 0)) (length_replicate n (of_int 0)).
  induction events as [|e events IH]; intros row Hrow; simpl; [exact Hrow|].
  apply IH. now rewrite length_insert.
Qed.

(** *** [_load_one_run] when the library serves the run *)

Lemma load_one_run_ok self subject run w raw0 events :
  library_serves (ensure_config (config w) !! CONFIG_KEY) subject run raw0 events ->
  offsets_in_range (n_times raw0) events ->
  _load_one_run self subject run true w
  = (Ok (length (heap w)),
     mkWorld (ensure_config (config w)) (requests w ++ [run_request subject run])
       (heap w ++ [with_stim raw0 events])).
Proof.
  intros Hs Hrange. unfold library_serves in Hs. cbv zeta in Hs.
  destruct Hs as ((fname & rest & Hload & Hread) & Hr1 & Hr2 & Hr3 & Hm
                  & (ids & Hev) & Hadd).
  unfold _load_one_run. rewrite ensure_step.
  set (c := ensure_config (config w)) in *.
  set (q := requests w ++ [run_request subject run]).
  set (h := heap w).
  erewrite bind_ok; cycle 1.
  { unfold load_data. simpl. rewrite Hload. reflexivity. }
  erewrite bind_ok by reflexivity.
  erewrite bind_ok; cycle 1.
  { unfold read_raw_edf_new, lift, bind. rewrite Hread. reflexivity. }
  simpl heap. fold h. fold q.
  erewrite bind_ok by (apply rename_channels_newest; exact Hr1).
  erewrite bind_ok by (apply rename_channels_newest; exact Hr2).
  erewrite bind_ok by (apply rename_channels_dict_newest; exact Hr3).
  unfold make_standard_montage.
  erewrite bind_ok; cycle 1.
  { apply set_montage_newest. simpl. exact Hm. }
  cbn [config requests heap]. fold (run_request subject run). fold q.
  match goal with
  | |- bind _ _ (mkWorld c q (h ++ [?r])) = _ => replace r with (prepared raw0)
  end.
  2:{ unfold prepared, with_montage, with_ch_names, ChannelNames.normalize_name. simpl.
      f_equal. rewrite <- !list_fmap_compose. reflexivity. }
  erewrite bind_ok; cycle 1.
  { unfold events_of. erewrite bind_ok by apply read_raw_newest.
    rewrite Hev. reflexivity. }
  lazy beta iota.
  erewrite bind_ok by apply read_raw_newest.
  erewrite bind_ok; cycle 1.
  { unfold np_zeros. simpl replicate. apply write_events_ok.
    rewrite length_replicate. exact Hrange. }
  erewrite bind_ok; cycle 1.
  { apply add_channels_newest. exact Hadd. }
  reflexivity.
Qed.

(** *** What the marker row holds *)

Lemma write_events_other (events : list event) (row : list sample) (i : nat) :
  (forall e, e ∈ events -> Z.to_nat (ev_sample e) <> i) ->
  foldl (fun row e => <[Z.to_nat (ev_sample e) := of_int (ev_code e)]> row) row events
    !! i = row !! i.
Proof.
  revert row. induction events as [|e0 events IH]; intros row Hne; simpl.
  - reflexivity.
  - rewrite IH.
    + apply list_lookup_insert_ne. apply Hne. left.
    + intros e He. apply Hne. now right.
Qed.

Lemma write_events_at (events : list event) (row : list sample) (e : event) :
  offsets_in_range (length row) events ->
  NoDup (ev_sample <$> events) ->
  e ∈ events ->
  foldl (fun row e => <[Z.to_nat (ev_sample e) := of_int (ev_code e)]> row) row events
    !! Z.to_nat (ev_sample e) = Some (of_int (ev_code e)).
Proof.
  revert row. induction events as [|e0 events IH]; intros row Hr Hnd He; simpl.
  - inversion He.
  - inversion Hr as [|? ? Hr0 Hrs]; subst.
    rewrite fmap_cons in Hnd. apply NoDup_cons in Hnd as [Hfresh Hnd].
    apply elem_of_cons in He as [->|He].
    + rewrite write_events_other.
      * apply list_lookup_insert_eq. lia.
      * intros e He Heq. apply Hfresh.
        rewrite List.Forall_forall in Hrs.
        assert (Hre : 0 <= ev_sample e < Z.of_nat (length row)).
        { apply Hrs. now apply list_elem_of_In. }
        replace (ev_sample e0) with (ev_sample e) by lia.
        now apply list_elem_of_fmap_2.
    + apply IH; [now rewrite length_insert | exact Hnd | exact He].
Qed.

Lemma stim_row_at (n : nat) (events : list event) (e : event) :
  offsets_in_range n events ->
  NoDup (ev_sample <$> events) ->
  e ∈ events ->
  stim_row n events !! Z.to_nat (ev_sample e) = Some (of_int (ev_code e)).
Proof.
  intros Hr Hnd He. unfold stim_row. apply write_events_at; [|exact Hnd|exact He].
  now rewrite length_replicate.
Qed.

Lemma stim_row_elsewhere (n : nat) (events : list event) (i : nat) :
  offsets_in_range n events ->
  (i < n)%nat ->
  Z.of_nat i ∉ (ev_sample <$> events) ->
  stim_row n events !! i = Some (of_int 0).
Proof.
  intros Hr Hi Hnot. unfold stim_row. rewrite write_events_other.
  - now apply lookup_replicate_2.
  - intros e He Heq. apply Hnot. subst i.
    unfold offsets_in_range in Hr. rewrite List.Forall_forall in Hr.
    assert (Hre : 0 <= ev_sample e < Z.of_nat n).
    { apply Hr. now apply list_elem_of_In. }
    rewrite Z2Nat.id by lia. now apply list_elem_of_fmap_2.
Qed.

(** C3. When the library serves the run and the decoded events have
    pairwise distinct offsets inside the recording, [_load_one_run] (with
    [preload=True], as the adapter always calls it) returns the recording with exactly one channel appended, named
    "STI 014", of the recording's sample count, holding the code of each
    event at its offset and 0 at every other sample; the run index plays
    no part. *)
Theorem load_one_run_appends_marker_channel
    self subject run w raw0 events :
  library_serves (ensure_config (config w) !! CONFIG_KEY) subject run raw0 events ->
  offsets_in_range (n_times raw0) events ->
  NoDup (ev_sample <$> events) ->
  exists (raw : ref) (r : Raw sample) (stim : list sample),
    (_load_one_run self subject run true w).1 = Ok raw
    /\ heap (_load_one_run self subject run true w).2 !! raw = Some r
    /\ ch_names r = (ChannelNames.normalize_name <$> ch_names raw0) ++ ["STI 014"]
    /\ ch_types r = ch_types raw0 ++ ["stim"]
    /\ _data r = _data raw0 ++ [stim]
    /\ length stim = n_times raw0
    /\ n_times r = n_times raw0
    /\ (forall e, e ∈ events ->
          stim !! Z.to_nat (ev_sample e) = Some (of_int (ev_code e)))
    /\ (forall i : nat, (i < n_times raw0)%nat ->
          Z.of_nat i ∉ (ev_sample <$> events) -> stim !! i = Some (of_int 0)).
Proof.
  intros Hs Hr Hnd.
  exists (length (heap w)), (with_stim raw0 events), (stim_row (n_times raw0) events).
  rewrite (load_one_run_ok self subject run w raw0 events Hs Hr). simpl.
  split; [reflexivity|]. split; [apply lookup_newest|].
  split; [reflexivity|]. split; [reflexivity|]. split; [reflexivity|].
  split; [apply stim_row_length|]. split; [reflexivity|].
  split.
  - intros e He. now apply stim_row_at.
  - intros i Hi Hnot. now apply stim_row_elsewhere.
Qed.

(** *** The remap of a feet run *)

Lemma remap_twice (row : list sample) :
  let row' :=
    assign_where ((fun x => bool_decide (x = of_int 2)) <$> row) (of_int 4) row in
  assign_where ((fun x => bool_decide (x = of_int 3)) <$> row') (of_int 5) row'
  = remap_code <$> row.
Proof.
  assert (H43 : of_int 4 <> of_int 3).
  { intros H. apply of_int_inj in H; lia. }
  induction row as [|x row IH]; simpl; [reflexivity|].
  f_equal; [|exact IH].
  unfold remap_code. destruct (bool_decide (x = of_int 2)); [|reflexivity].
  now rewrite bool_decide_eq_false_2.
Qed.

Lemma remapped_last (r : Raw sample) (d : list (list sample)) (row : list sample) :
  _data r = d ++ [row] ->
  remapped r = with_data (d ++ [remap_code <$> row]) r.
Proof.
  intros Hd. unfold remapped. rewrite Hd, length_app, Nat.add_comm. simpl.
  rewrite np_index_last, lookup_newest. f_equal.
  rewrite <- (Nat.add_0_r (length d)).
  now rewrite insert_app_r.
Qed.

(** The five statements of lines 142-144 on the newest object. *)
Lemma remap_block {A : Type} (k : M A) c q (h : list (Raw sample)) r d row :
  _data r = d ++ [row] ->
  bind (data_row (length h) (-1))
    (fun stim =>
       bind (view_eq stim 2)
         (fun mask =>
            bind (data_setitem_where (length h) (-1) mask 4)
              (fun _ =>
                 bind (view_eq stim 3)
                   (fun mask =>
                      bind (data_setitem_where (length h) (-1) mask 5)
                        (fun _ => k)))))
    (mkWorld c q (h ++ [r]))
  = k (mkWorld c q (h ++ [remapped r])).
Proof.
  intros Hd.
  assert (Hidx : forall row1, np_index (length (d ++ [row1])) (-1) = Some (length d)).
  { intros row1. rewrite length_app, Nat.add_comm. apply np_index_last. }
  erewrite bind_ok; cycle 1.
  { unfold data_row. erewrite bind_ok by apply read_raw_newest.
    rewrite Hd, Hidx. reflexivity. }
  erewrite bind_ok; cycle 1.
  { unfold view_eq. cbn [view_raw view_row].
    erewrite bind_ok by apply read_raw_newest.
    rewrite Hd, lookup_newest. reflexivity. }
  erewrite bind_ok; cycle 1.
  { unfold data_setitem_where. erewrite bind_ok by apply read_raw_newest.
    rewrite Hd, Hidx, lookup_newest, length_fmap.
    rewrite bool_decide_eq_true_2 by reflexivity.
    apply modify_raw_newest. }
  set (row1 := assign_where ((fun x => bool_decide (x = of_int 2)) <$> row) (of_int 4) row).
  assert (Hd1 : <[length d := row1]> (d ++ [row]) = d ++ [row1]).
  { rewrite <- (Nat.add_0_r (length d)) at 1. now rewrite insert_app_r. }
  rewrite Hd1.
  erewrite bind_ok; cycle 1.
  { unfold view_eq. cbn [view_raw view_row].
    erewrite bind_ok by apply read_raw_newest.
    cbn [_data with_data]. rewrite lookup_newest. reflexivity. }
  erewrite bind_ok; cycle 1.
  { unfold data_setitem_where. erewrite bind_ok by apply read_raw_newest.
    cbn [_data with_data]. rewrite Hidx, lookup_newest, length_fmap.
    rewrite bool_decide_eq_true_2 by reflexivity.
    apply modify_raw_newest. }
  f_equal. f_equal. f_equal. f_equal.
  rewrite (remapped_last r d row Hd).
  unfold with_data. cbn [ch_names ch_types sfreq n_times annotations montage].
  f_equal.
  rewrite <- (Nat.add_0_r (length d)) at 1. rewrite insert_app_r. simpl.
  f_equal. f_equal. subst row1. apply remap_twice.
Qed.

(** *** The loops of [_get_single_subject_data] *)

Lemma load_one_run_configured self subject run c q h raw0 events :
  c !! CONFIG_KEY <> None ->
  library_serves (c !! CONFIG_KEY) subject run raw0 events ->
  offsets_in_range (n_times raw0) events ->
  _load_one_run self subject run true (mkWorld c q h)
  = (Ok (length h),
     mkWorld c (q ++ [run_request subject run]) (h ++ [with_stim raw0 events])).
Proof.
  intros Hc Hs Hr.
  pose proof (load_one_run_ok self subject run (mkWorld c q h) raw0 events) as H.
  simpl in H. rewrite (ensure_config_when_set c Hc) in H. exact (H Hs Hr).
Qed.

Lemma with_stim_data (raw0 : Raw sample) (events : list event) :
  _data (with_stim raw0 events) = _data raw0 ++ [stim_row (n_times raw0) events].
Proof. reflexivity. Qed.

Section Loops.
Variables (self : PhysionetMI) (subject : Z) (c : gmap string string).
Variables (raw0 : Z -> Raw sample) (events : Z -> list event).
Hypothesis Hc : c !! CONFIG_KEY <> None.

(** Every run of the list is served, with offsets inside the recording. *)
Let served (runs : list Z) : Prop :=
  forall run, run ∈ runs ->
    library_serves (c !! CONFIG_KEY) subject run (raw0 run) (events run)
    /\ offsets_in_range (n_times (raw0 run)) (events run).

Lemma hand_loop_ok (runs : list Z) :
  served runs ->
  forall data q h,
    for_each runs
      (fun data run =>
         bind (_load_one_run self subject run true)
           (fun raw => ret (<[run_label run := raw]> data)))
      data (mkWorld c q h)
    = (Ok (store_labels (length h) (run_label <$> runs) data),
       mkWorld c (q ++ (run_request subject <$> runs))
         (h ++ ((fun run => with_stim (raw0 run) (events run)) <$> runs))).
Proof.
  induction runs as [|run runs IH]; intros Hserved data q h; simpl.
  - now rewrite !app_nil_r.
  - destruct (Hserved run) as [Hs Hr]; [left|].
    erewrite bind_ok; cycle 1.
    { erewrite bind_ok by (apply load_one_run_configured; eassumption).
      reflexivity. }
    rewrite IH by (intros run' Hrun'; apply Hserved; now right).
    rewrite length_app, Nat.add_comm. simpl.
    now rewrite <- !app_assoc.
Qed.

Lemma feet_loop_ok (runs : list Z) :
  served runs ->
  forall data q h,
    for_each runs
      (fun data run =>
         bind (_load_one_run self subject run true)
           (fun raw =>
              bind (data_row raw (-1))
                (fun stim =>
                   bind (view_eq stim 2)
                     (fun mask =>
                        bind (data_setitem_where raw (-1) mask 4)
                          (fun _ =>
                             bind (view_eq stim 3)
                               (fun mask =>
                                  bind (data_setitem_where raw (-1) mask 5)
                                    (fun _ => ret (<[run_label run := raw]> data))))))))
      data (mkWorld c q h)
    = (Ok (store_labels (length h) (run_label <$> runs) data),
       mkWorld c (q ++ (run_request subject <$> runs))
         (h ++ ((fun run => remapped (with_stim (raw0 run) (events run))) <$> runs))).
Proof.
  induction runs as [|run runs IH]; intros Hserved data q h; simpl.
  - now rewrite !app_nil_r.
  - destruct (Hserved run) as [Hs Hr]; [left|].
    erewrite bind_ok; cycle 1.
    { erewrite bind_ok by (apply load_one_run_configured; eassumption).
      erewrite remap_block by apply with_stim_data.
      reflexivity. }
    rewrite IH by (intros run' Hrun'; apply Hserved; now right).
    rewrite length_app, Nat.add_comm. simpl.
    now rewrite <- !app_assoc.
Qed.

End Loops.

Lemma store_labels_app (l1 l2 : list string) (p : ref) (d : gmap string ref) :
  store_labels p (l1 ++ l2) d
  = store_labels (length l1 + p)%nat l2 (store_labels p l1 d).
Proof.
  revert p d. induction l1 as [|l l1 IH]; intros p d; simpl; [reflexivity|].
  rewrite IH. f_equal. lia.
Qed.

(** *** [_get_single_subject_data] when the library serves every run *)

Lemma loaded_runs_eq self :
  loaded_runs self = [1; 2] ++ hand_runs self ++ feet_runs self.
Proof.
  unfold loaded_runs, session_plan.
  rewrite !fmap_app, <- !list_fmap_compose. simpl.
  now rewrite !list_fmap_id.
Qed.

Lemma loaded_runs_hand self run : run ∈ hand_runs self -> run ∈ loaded_runs self.
Proof.
  intros H. rewrite loaded_runs_eq. do 2 right. apply elem_of_app. now left.
Qed.

Lemma loaded_runs_feet self run : run ∈ feet_runs self -> run ∈ loaded_runs self.
Proof.
  intros H. rewrite loaded_runs_eq. do 2 right. apply elem_of_app. now right.
Qed.

Lemma get_single_subject_data_ok self subject w raw0 events :
  (forall run, run ∈ loaded_runs self ->
     library_serves (ensure_config (config w) !! CONFIG_KEY) subject run
       (raw0 run) (events run)
     /\ offsets_in_range (n_times (raw0 run)) (events run)) ->
  _get_single_subject_data self subject w
  = (Ok {["session_0" := session_data self (length (heap w))]},
     mkWorld (ensure_config (config w))
       (requests w ++ (run_request subject <$> loaded_runs self))
       (heap w ++ session_objects self raw0 events)).
Proof.
  intros Hserved. unfold _get_single_subject_data. rewrite ensure_step.
  pose proof (ensure_config_set (config w)) as Hc.
  set (c := ensure_config (config w)) in *.
  destruct (Hserved 1) as [Hs1 Hr1]; [left|].
  destruct (Hserved 2) as [Hs2 Hr2]; [right; left|].
  erewrite bind_ok by (apply load_one_run_configured; eassumption).
  erewrite bind_ok by (apply load_one_run_configured; eassumption).
  erewrite bind_ok; cycle 1.
  { apply (hand_loop_ok self subject c raw0 events Hc).
    intros run Hrun. apply Hserved. now apply loaded_runs_hand. }
  erewrite bind_ok; cycle 1.
  { apply (feet_loop_ok self subject c raw0 events Hc).
    intros run Hrun. apply Hserved. now apply loaded_runs_feet. }
  unfold ret, session_data, run_labels, session_objects, loaded_runs, session_plan.
  rewrite !length_app, !length_fmap. simpl length.
  rewrite !fmap_app, <- !app_assoc, <- !list_fmap_compose. simpl.
  rewrite store_labels_app, length_fmap, !Nat.add_1_r.
  replace (S (S (length (heap w))) + length (hand_runs self))%nat
    with (length (hand_runs self) + S (S (length (heap w))))%nat by lia.
  reflexivity.
Qed.

(** *** The session mapping *)

Lemma store_labels_lookup_ne (labels : list string) :
  forall (p : ref) (d : gmap string ref) (label : string),
    label ∉ labels -> store_labels p labels d !! label = d !! label.
Proof.
  induction labels as [|l labels IH]; intros p d label Hnot; simpl; [reflexivity|].
  apply not_elem_of_cons in Hnot as [Hne Hnot].
  rewrite IH by exact Hnot. now apply lookup_insert_ne.
Qed.

Lemma store_labels_lookup (labels : list string) :
  forall (p : ref) (d : gmap string ref) (i : nat) (label : string),
    NoDup labels -> labels !! i = Some label ->
    store_labels p labels d !! label = Some (p + i)%nat.
Proof.
  induction labels as [|l labels IH]; intros p d i label Hnd Hi; [inversion Hi|].
  apply NoDup_cons in Hnd as [Hfresh Hnd]. destruct i as [|i]; simpl in *.
  - injection Hi as ->. rewrite store_labels_lookup_ne by exact Hfresh.
    rewrite lookup_insert_eq. f_equal. lia.
  - rewrite (IH (S p) _ i label Hnd Hi). f_equal. lia.
Qed.

Lemma store_labels_dom (labels : list string) :
  forall (p : ref) (d : gmap string ref),
    dom (store_labels p labels d) = list_to_set labels ∪ dom d.
Proof.
  induction labels as [|l labels IH]; intros p d; simpl.
  - now rewrite (left_id_L ∅ (∪)).
  - rewrite IH, dom_insert_L.
    now rewrite (assoc_L (∪)), (comm_L (∪) (list_to_set labels) {[l]}).
Qed.

Lemma session_data_dom self p :
  dom (session_data self p) = list_to_set (run_labels self).
Proof.
  unfold session_data. rewrite store_labels_dom, dom_empty_L.
  now rewrite (right_id_L ∅ (∪)).
Qed.

Lemma session_data_size self p :
  NoDup (run_labels self) -> size (session_data self p) = length (session_plan self).
Proof.
  intros Hnd. rewrite <- size_dom, session_data_dom.
  rewrite size_list_to_set by exact Hnd.
  unfold run_labels. now rewrite length_fmap.
Qed.

Lemma session_entry self raw0 events (h : list (Raw sample)) (i : nat) (e : entry) :
  NoDup (run_labels self) ->
  session_plan self !! i = Some e ->
  session_data self (length h) !! entry_label e = Some (length h + i)%nat
  /\ (h ++ session_objects self raw0 events) !! (length h + i)%nat
     = Some (entry_object raw0 events e).
Proof.
  intros Hnd Hi. split.
  - unfold session_data. apply store_labels_lookup; [exact Hnd|].
    unfold run_labels. now rewrite list_lookup_fmap, Hi.
  - rewrite lookup_app_r by lia.
    replace (length h + i - length h)%nat with i by lia.
    unfold session_objects. now rewrite list_lookup_fmap, Hi.
Qed.

Lemma run_labels_nodup (imagined executed : bool) :
  NoDup (run_labels (__init__ imagined executed)).
Proof.
  destruct imagined, executed; apply (bool_decide_unpack _); vm_compute; exact I.
Qed.

Lemma stim_row_values (n : nat) (events : list event) (x : sample) :
  x ∈ stim_row n events ->
  x = of_int 0 \/ exists e, e ∈ events /\ x = of_int (ev_code e).
Proof.
  unfold stim_row.
  assert (Hgen : forall row : list sample,
             (forall y, y ∈ row -> y = of_int 0) ->
             x ∈ foldl (fun row e => <[Z.to_nat (ev_sample e) := of_int (ev_code e)]> row)
                   row events ->
             x = of_int 0 \/ exists e, e ∈ events /\ x = of_int (ev_code e)).
  { induction events as [|e0 events IH] using rev_ind; intros row Hrow Hx.
    - left. now apply Hrow.
    - rewrite foldl_app in Hx. simpl in Hx.
      apply list_elem_of_lookup in Hx as [j Hj].
      apply list_lookup_insert_Some in Hj as [(_ & <- & _)|(_ & Hj)].
      + right. exists e0. split; [|reflexivity]. apply elem_of_app. right. left.
      + destruct (IH row Hrow) as [H0|(e & He & Hx)].
        * apply list_elem_of_lookup. now exists j.
        * now left.
        * right. exists e. split; [|exact Hx]. apply elem_of_app. now left. }
  apply Hgen. intros y Hy. now apply elem_of_replicate_inv in Hy.
Qed.

Lemma remap_code_2 : remap_code (of_int 2) = of_int 4.
Proof. unfold remap_code. now rewrite bool_decide_eq_true_2. Qed.

Lemma remap_code_3 : remap_code (of_int 3) = of_int 5.
Proof.
  unfold remap_code. rewrite bool_decide_eq_false_2.
  - now rewrite bool_decide_eq_true_2.
  - intros H. apply of_int_inj in H; lia.
Qed.

Lemma remap_code_other (x : sample) :
  x <> of_int 2 -> x <> of_int 3 -> remap_code x = x.
Proof.
  intros H2 H3. unfold remap_code. now rewrite !bool_decide_eq_false_2.
Qed.

Lemma remap_code_never_raw (x : sample) :
  remap_code x <> of_int 2 /\ remap_code x <> of_int 3.
Proof.
  unfold remap_code.
  destruct (bool_decide (x = of_int 2)) eqn:E2.
  - split; intros H; apply of_int_inj in H; lia.
  - destruct (bool_decide (x = of_int 3)) eqn:E3.
    + split; intros H; apply of_int_inj in H; lia.
    + apply bool_decide_eq_false in E2, E3. now split.
Qed.

Lemma plan_feet self run :
  run ∈ feet_runs self ->
  exists i, session_plan self !! i = Some (mkEntry (run_label run) run true).
Proof.
  intros H. apply list_elem_of_lookup. unfold session_plan.
  do 2 right. apply elem_of_app. right.
  now apply (list_elem_of_fmap_2 (fun run => mkEntry (run_label run) run true)).
Qed.

Lemma plan_hand self run :
  run ∈ hand_runs self ->
  exists i, session_plan self !! i = Some (mkEntry (run_label run) run false).
Proof.
  intros H. apply list_elem_of_lookup. unfold session_plan.
  do 2 right. apply elem_of_app. left.
  now apply (list_elem_of_fmap_2 (fun run => mkEntry (run_label run) run false)).
Qed.

Lemma fetch_in_configured_world self subject w raw0 events run :
  serves_subject self subject w raw0 events ->
  run ∈ loaded_runs self ->
  forall q h,
    _load_one_run self subject run true (mkWorld (ensure_config (config w)) q h)
    = (Ok (length h),
       mkWorld (ensure_config (config w)) (q ++ [run_request subject run])
         (h ++ [with_stim (raw0 run) (events run)])).
Proof.
  intros Hs Hrun q h. destruct (Hs run Hrun) as [H1 H2].
  apply load_one_run_configured; [apply ensure_config_set | exact H1 | exact H2].
Qed.

(** C1. For every feet run, what is stored is the recording as fetched
    with its last row (the marker channel) changed and nothing else: a
    sample of value 2 became 4, a sample of value 3 became 5, every other
    sample of that row is what it was.  So the stored marker row never
    holds 2 or 3, and holds only 0, 1, 4, 5 when the fetched one held
    only 0, 1, 2, 3. *)
Theorem feet_runs_are_remapped imagined executed subject w raw0 events :
  let self := __init__ imagined executed in
  let out := _get_single_subject_data self subject w in
  serves_subject self subject w raw0 events ->
  exists data : gmap string ref,
    out.1 = Ok {["session_0" := data]}
    /\ forall run, run ∈ feet_runs self ->
         let fetched := with_stim (raw0 run) (events run) in
         let stim := stim_row (n_times (raw0 run)) (events run) in
         exists (p : ref) (stored : Raw sample),
           (forall q h,
               _load_one_run self subject run true
                 (mkWorld (ensure_config (config w)) q h)
               = (Ok (length h),
                  mkWorld (ensure_config (config w))
                    (q ++ [run_request subject run]) (h ++ [fetched])))
           /\ _data fetched = _data (raw0 run) ++ [stim]
           /\ data !! run_label run = Some p
           /\ heap out.2 !! p = Some stored
           /\ stored = with_data (_data (raw0 run) ++ [remap_code <$> stim]) fetched
           /\ remap_code (of_int 2) = of_int 4
           /\ remap_code (of_int 3) = of_int 5
           /\ (forall x, x <> of_int 2 -> x <> of_int 3 -> remap_code x = x)
           /\ (forall y, y ∈ remap_code <$> stim -> y <> of_int 2 /\ y <> of_int 3)
           /\ ((forall x, x ∈ stim ->
                  x = of_int 0 \/ x = of_int 1 \/ x = of_int 2 \/ x = of_int 3) ->
               forall y, y ∈ remap_code <$> stim ->
                 y = of_int 0 \/ y = of_int 1 \/ y = of_int 4 \/ y = of_int 5).
Proof.
  intros self out Hs. subst out.
  rewrite (get_single_subject_data_ok self subject w raw0 events Hs).
  cbn [fst snd heap].
  exists (session_data self (length (heap w))). split; [reflexivity|].
  intros run Hrun.
  set (fetched := with_stim (raw0 run) (events run)).
  set (stim := stim_row (n_times (raw0 run)) (events run)).
  destruct (plan_feet self run Hrun) as [i Hi].
  destruct (session_entry self raw0 events (heap w) i _
              (run_labels_nodup imagined executed) Hi) as [Hd Ho].
  exists (length (heap w) + i)%nat, (remapped fetched).
  split.
  { apply fetch_in_configured_world; [exact Hs | now apply loaded_runs_feet]. }
  split; [reflexivity|]. split; [exact Hd|]. split; [exact Ho|].
  split; [now apply remapped_last|].
  split; [apply remap_code_2|]. split; [apply remap_code_3|].
  split; [apply remap_code_other|].
  split.
  - intros y Hy. apply list_elem_of_fmap_1 in Hy as (x & -> & _).
    apply remap_code_never_raw.
  - intros Hin y Hy. apply list_elem_of_fmap_1 in Hy as (x & -> & Hx).
    destruct (Hin x Hx) as [-> | [-> | [-> | ->]]].
    + left. apply remap_code_other; intros H; apply of_int_inj in H; lia.
    + right. left. apply remap_code_other; intros H; apply of_int_inj in H; lia.
    + right. right. left. apply remap_code_2.
    + right. right. right. apply remap_code_3.
Qed.

Lemma declared_codes_init imagined executed (c : Z) :
  c ∈ declared_codes (__init__ imagined executed) <-> 1 <= c <= 5.
Proof.
  replace (declared_codes (__init__ imagined executed)) with [2; 3; 5; 4; 1]
    by (now destruct imagined, executed).
  rewrite !elem_of_cons, elem_of_nil. lia.
Qed.

(** C7. For the two baseline runs and every hand run, what is stored is
    the recording exactly as fetched: its marker row holds 0 and the
    decoded event codes, and so only 0 and codes of the declared
    vocabulary 1..5 when the decoder yields codes of that vocabulary;
    the feet runs fetched later leave it as it is. *)
Theorem other_runs_are_stored_as_fetched imagined executed subject w raw0 events :
  let self := __init__ imagined executed in
  let out := _get_single_subject_data self subject w in
  serves_subject self subject w raw0 events ->
  exists data : gmap string ref,
    out.1 = Ok {["session_0" := data]}
    /\ (forall c : Z, c ∈ declared_codes self <-> 1 <= c <= 5)
    /\ forall (label : string) (run : Z),
         (label = "baseline_eye_open" /\ run = 1)
         \/ (label = "baseline_eye_closed" /\ run = 2)
         \/ (label = run_label run /\ run ∈ hand_runs self) ->
         let fetched := with_stim (raw0 run) (events run) in
         let stim := stim_row (n_times (raw0 run)) (events run) in
         exists p : ref,
           (forall q h,
               _load_one_run self subject run true
                 (mkWorld (ensure_config (config w)) q h)
               = (Ok (length h),
                  mkWorld (ensure_config (config w))
                    (q ++ [run_request subject run]) (h ++ [fetched])))
           /\ data !! label = Some p
           /\ heap out.2 !! p = Some fetched
           /\ _data fetched = _data (raw0 run) ++ [stim]
           /\ (forall x, x ∈ stim ->
                 x = of_int 0
                 \/ exists e, e ∈ events run /\ x = of_int (ev_code e))
           /\ ((forall e, e ∈ events run -> ev_code e ∈ declared_codes self) ->
               forall x, x ∈ stim ->
                 x = of_int 0
                 \/ exists c, c ∈ declared_codes self /\ x = of_int c).
Proof.
  intros self out Hs. subst out.
  rewrite (get_single_subject_data_ok self subject w raw0 events Hs).
  cbn [fst snd heap].
  exists (session_data self (length (heap w))). split; [reflexivity|].
  split.
  { intros c. apply declared_codes_init. }
  intros label run Hcase.
  set (fetched := with_stim (raw0 run) (events run)).
  set (stim := stim_row (n_times (raw0 run)) (events run)).
  assert (Hplan : exists i, session_plan self !! i = Some (mkEntry label run false)).
  { destruct Hcase as [[-> ->] | [[-> ->] | [-> Hrun]]].
    - now exists 0%nat.
    - now exists 1%nat.
    - now apply plan_hand. }
  destruct Hplan as [i Hi].
  destruct (session_entry self raw0 events (heap w) i _
              (run_labels_nodup imagined executed) Hi) as [Hd Ho].
  exists (length (heap w) + i)%nat.
  split.
  { apply fetch_in_configured_world; [exact Hs|].
    apply list_elem_of_lookup. exists i. unfold loaded_runs.
    now rewrite list_lookup_fmap, Hi. }
  split; [exact Hd|]. split; [exact Ho|]. split; [reflexivity|].
  split.
  - intros x Hx. exact (stim_row_values _ _ _ Hx).
  - intros Hcodes x Hx. destruct (stim_row_values _ _ _ Hx) as [-> | (e & He & ->)].
    + now left.
    + right. exists (ev_code e). split; [now apply Hcodes | reflexivity].
Qed.

Lemma entry_object_channels raw0 events (e : entry) :
  length (ch_names (entry_object raw0 events e))
  = S (length (ch_names (raw0 (entry_run e))))
  /\ length (_data (entry_object raw0 events e))
     = S (length (_data (raw0 (entry_run e)))).
Proof.
  unfold entry_object.
  set (r := with_stim (raw0 (entry_run e)) (events (entry_run e))).
  assert (Hn : length (ch_names r) = S (length (ch_names (raw0 (entry_run e))))).
  { subst r. simpl. rewrite length_app, length_fmap. simpl. lia. }
  assert (Hd : length (_data r) = S (length (_data (raw0 (entry_run e))))).
  { subst r. rewrite with_stim_data, length_app. simpl. lia. }
  destruct (entry_feet e); [|now split].
  rewrite (remapped_last r _ _ (with_stim_data _ _)). simpl. split; [exact Hn|].
  rewrite length_app. simpl. lia.
Qed.

(** C2. Under the default policy the adapter fetches the runs
    1, 2, 4, 8, 12, 6, 10, 14 in this order, whatever the subject (so for
    each of 1..109), and returns the mapping with the single key
    "session_0", whose value has exactly the eight labels of those runs,
    each holding a recording with one channel more than the decoded one. *)
Theorem default_policy_session subject w raw0 events :
  let self := __init__ true false in
  let out := _get_single_subject_data self subject w in
  serves_subject self subject w raw0 events ->
  loaded_runs self = [1; 2; 4; 8; 12; 6; 10; 14]
  /\ requests out.2
     = requests w ++ (run_request subject <$> [1; 2; 4; 8; 12; 6; 10; 14])
  /\ exists data : gmap string ref,
       out.1 = Ok {["session_0" := data]}
       /\ dom data
          = {[ "baseline_eye_open"; "baseline_eye_closed"; "run_4"; "run_8";
               "run_12"; "run_6"; "run_10"; "run_14" ]}
       /\ size data = 8%nat
       /\ session_plan self
          = [mkEntry "baseline_eye_open" 1 false;
             mkEntry "baseline_eye_closed" 2 false;
             mkEntry "run_4" 4 false; mkEntry "run_8" 8 false;
             mkEntry "run_12" 12 false; mkEntry "run_6" 6 true;
             mkEntry "run_10" 10 true; mkEntry "run_14" 14 true]
       /\ forall e, e ∈ session_plan self ->
            exists (p : ref) (r : Raw sample),
              data !! entry_label e = Some p
              /\ heap out.2 !! p = Some r
              /\ length (ch_names r) = S (length (ch_names (raw0 (entry_run e))))
              /\ length (_data r) = S (length (_data (raw0 (entry_run e)))).
Proof.
  intros self out Hs. subst out.
  rewrite (get_single_subject_data_ok self subject w raw0 events Hs).
  cbn [fst snd heap requests].
  split; [reflexivity|]. split; [reflexivity|].
  exists (session_data self (length (heap w))). split; [reflexivity|].
  split.
  { rewrite session_data_dom. apply set_eq. intros x.
    change (run_labels self)
      with ["baseline_eye_open"; "baseline_eye_closed"; "run_4"; "run_8";
            "run_12"; "run_6"; "run_10"; "run_14"].
    rewrite elem_of_list_to_set, !elem_of_union, !elem_of_singleton.
    rewrite !elem_of_cons, elem_of_nil. tauto. }
  split.
  { rewrite session_data_size by apply (run_labels_nodup true false). reflexivity. }
  split; [reflexivity|].
  intros e He. apply list_elem_of_lookup in He as [i Hi].
  destruct (session_entry self raw0 events (heap w) i e
              (run_labels_nodup true false) Hi) as [Hd Ho].
  exists (length (heap w) + i)%nat, (entry_object raw0 events e).
  split; [exact Hd|]. split; [exact Ho|]. apply entry_object_channels.
Qed.

Lemma hand_feet_disjoint imagined executed (run : Z) :
  run ∈ hand_runs (__init__ imagined executed) ->
  run ∉ feet_runs (__init__ imagined executed).
Proof.
  destruct imagined, executed; simpl;
    rewrite ?elem_of_cons, ?elem_of_nil, ?not_elem_of_cons; intros H;
    repeat split; try apply not_elem_of_nil; lia.
Qed.

(** C9. For every policy the labels of the session mapping are pairwise
    distinct and no run is both a hand and a feet run; so every label
    holds the object of its own fetch, and the mapping has one entry per
    fetched run, [2 + |hand_runs| + |feet_runs|] in all. *)
Theorem session_labels_distinct imagined executed subject w raw0 events :
  let self := __init__ imagined executed in
  let out := _get_single_subject_data self subject w in
  serves_subject self subject w raw0 events ->
  NoDup (run_labels self)
  /\ run_labels self
     = ["baseline_eye_open"; "baseline_eye_closed"]
       ++ (run_label <$> hand_runs self) ++ (run_label <$> feet_runs self)
  /\ (forall run, run ∈ hand_runs self -> run ∉ feet_runs self)
  /\ exists data : gmap string ref,
       out.1 = Ok {["session_0" := data]}
       /\ size data = (2 + length (hand_runs self) + length (feet_runs self))%nat
       /\ length (requests out.2)
          = (length (requests w)
             + (2 + length (hand_runs self) + length (feet_runs self)))%nat
       /\ length (heap out.2)
          = (length (heap w)
             + (2 + length (hand_runs self) + length (feet_runs self)))%nat
       /\ forall (i : nat) (e : entry),
            session_plan self !! i = Some e ->
            data !! entry_label e = Some (length (heap w) + i)%nat
            /\ heap out.2 !! (length (heap w) + i)%nat
               = Some (entry_object raw0 events e).
Proof.
  intros self out Hs. subst out.
  rewrite (get_single_subject_data_ok self subject w raw0 events Hs).
  cbn [fst snd heap requests].
  pose proof (run_labels_nodup imagined executed) as Hnd. fold self in Hnd.
  assert (Hlen : length (session_plan self)
                 = (2 + length (hand_runs self) + length (feet_runs self))%nat).
  { unfold session_plan. rewrite !length_app, !length_fmap. simpl. lia. }
  split; [exact Hnd|].
  split.
  { unfold run_labels, session_plan.
    now rewrite !fmap_app, <- !list_fmap_compose. }
  split; [apply hand_feet_disjoint|].
  exists (session_data self (length (heap w))). split; [reflexivity|].
  split; [now rewrite session_data_size|].
  split.
  { unfold loaded_runs. now rewrite length_app, !length_fmap, Hlen. }
  split.
  { unfold session_objects. now rewrite length_app, !length_fmap, Hlen. }
  intros i e Hi. now apply session_entry.
Qed.

(** *** [data_path] *)

Lemma elem_of_range (a b x : Z) : x ∈ range a b <-> a <= x < b.
Proof.
  unfold range. rewrite list_elem_of_fmap. split.
  - intros (i & -> & Hi). apply elem_of_seq in Hi. lia.
  - intros H. exists (Z.to_nat (x - a)). split; [lia|].
    apply elem_of_seq. lia.
Qed.

Lemma subject_list_init imagined executed (subject : Z) :
  subject ∈ subject_list (__init__ imagined executed) <-> 1 <= subject <= 109.
Proof.
  replace (subject_list (__init__ imagined executed)) with (range 1 110)
    by (now destruct imagined, executed).
  rewrite elem_of_range. lia.
Qed.

Lemma data_path_invalid self subject path force_update update_path verbose w :
  subject ∉ subject_list self ->
  data_path self subject path force_update update_path verbose w
  = (Raise (ValueError "Invalid subject number"), w).
Proof.
  intros H. unfold data_path. now rewrite bool_decide_eq_false_2.
Qed.

Lemma data_path_valid self subject path force_update update_path verbose w :
  subject ∈ subject_list self ->
  data_path self subject path force_update update_path verbose w
  = (eegbci_load_data (ensure_config (config w) !! CONFIG_KEY) subject
       ([1; 2] ++ hand_runs self ++ feet_runs self) verbose None,
     mkWorld (ensure_config (config w))
       (requests w
        ++ [mkRequest subject ([1; 2] ++ hand_runs self ++ feet_runs self)
              verbose None])
       (heap w)).
Proof.
  intros H. unfold data_path. rewrite bool_decide_eq_true_2 by exact H.
  cbn [negb]. rewrite ensure_step. unfold bind, load_data, ret.
  cbn [config requests heap].
  now destruct (eegbci_load_data _ _ _ _ _).
Qed.

(** C4. For a subject outside 1..109, [data_path] raises the ValueError
    at once: no configuration is written and no download is requested.
    For a subject in 1..109 it does not: the paths are requested from the
    library, whose outcome is returned. *)
Theorem data_path_validates_subject
    imagined executed subject path force_update update_path verbose w :
  let self := __init__ imagined executed in
  let out := data_path self subject path force_update update_path verbose w in
  (~ (1 <= subject <= 109) ->
     out = (Raise (ValueError "Invalid subject number"), w))
  /\ (1 <= subject <= 109 ->
        out.1
        = eegbci_load_data (ensure_config (config w) !! CONFIG_KEY) subject
            ([1; 2] ++ hand_runs self ++ feet_runs self) verbose None
        /\ requests out.2
           = requests w
             ++ [mkRequest subject ([1; 2] ++ hand_runs self ++ feet_runs self)
                   verbose None]).
Proof.
  intros self out. subst out self. split; intros H.
  - apply data_path_invalid. now rewrite subject_list_init.
  - rewrite data_path_valid by now apply subject_list_init.
    now split.
Qed.

(** C10. [data_path] never reads [path], [force_update] and
    [update_path]: for a valid subject, whatever these three are, it makes
    the same configuration check, the same single request for the same
    runs, and returns what the library returns for it. *)
Theorem data_path_ignores_path_arguments
    self subject verbose w path1 force_update1 update_path1
    path2 force_update2 update_path2 :
  subject ∈ subject_list self ->
  let out1 := data_path self subject path1 force_update1 update_path1 verbose w in
  let out2 := data_path self subject path2 force_update2 update_path2 verbose w in
  out1 = out2
  /\ config out1.2 = ensure_config (config w)
  /\ requests out1.2
     = requests w
       ++ [mkRequest subject ([1; 2] ++ hand_runs self ++ feet_runs self)
             verbose None]
  /\ out1.1
     = eegbci_load_data (ensure_config (config w) !! CONFIG_KEY) subject
         ([1; 2] ++ hand_runs self ++ feet_runs self) verbose None.
Proof.
  intros H out1 out2. subst out1 out2.
  rewrite !(data_path_valid _ _ _ _ _ _ _ H). now repeat split.
Qed.

(** *** [_load_one_run] when the library fails *)

Lemma bind_raise {A B : Type} (c : M A) (k : A -> M B) (w w' : world) (e : exn) :
  c w = (Raise e, w') -> bind c k w = (Raise e, w').
Proof. intros H. unfold bind. now rewrite H. Qed.

Lemma load_one_run_download_raises self subject run preload w e :
  eegbci_load_data (ensure_config (config w) !! CONFIG_KEY) subject [run]
    (VStr "ERROR") (Some BASE_URL) = Raise e ->
  _load_one_run self subject run preload w
  = (Raise e,
     mkWorld (ensure_config (config w)) (requests w ++ [run_request subject run])
       (heap w)).
Proof.
  intros H. unfold _load_one_run. rewrite ensure_step.
  apply bind_raise. unfold load_data. cbn [config requests heap]. now rewrite H.
Qed.

Lemma load_one_run_no_file self subject run preload w :
  eegbci_load_data (ensure_config (config w) !! CONFIG_KEY) subject [run]
    (VStr "ERROR") (Some BASE_URL) = Ok [] ->
  _load_one_run self subject run preload w
  = (Raise IndexError,
     mkWorld (ensure_config (config w)) (requests w ++ [run_request subject run])
       (heap w)).
Proof.
  intros H. unfold _load_one_run. rewrite ensure_step.
  erewrite bind_ok; cycle 1.
  { unfold load_data. cbn [config requests heap]. rewrite H. reflexivity. }
  reflexivity.
Qed.

Lemma load_one_run_decode_raises self subject run preload w fname rest e :
  eegbci_load_data (ensure_config (config w) !! CONFIG_KEY) subject [run]
    (VStr "ERROR") (Some BASE_URL) = Ok (fname :: rest) ->
  read_raw_edf fname preload (VStr "ERROR") = Raise e ->
  _load_one_run self subject run preload w
  = (Raise e,
     mkWorld (ensure_config (config w)) (requests w ++ [run_request subject run])
       (heap w)).
Proof.
  intros H Hd. unfold _load_one_run. rewrite ensure_step.
  erewrite bind_ok; cycle 1.
  { unfold load_data. cbn [config requests heap]. rewrite H. reflexivity. }
  erewrite bind_ok by reflexivity.
  apply bind_raise. unfold read_raw_edf_new, lift, bind. now rewrite Hd.
Qed.

(** X5. When the download raises, or yields no file, or the file does
    not decode, [_load_one_run] raises (the library's error, IndexError
    for the empty list), having made its one request and the
    configuration check, and creates no recording object. *)
Theorem load_one_run_propagates_library_errors self subject run preload w :
  let cfg := ensure_config (config w) !! CONFIG_KEY in
  let after :=
    mkWorld (ensure_config (config w)) (requests w ++ [run_request subject run])
      (heap w) in
  (forall e,
      eegbci_load_data cfg subject [run] (VStr "ERROR") (Some BASE_URL) = Raise e ->
      _load_one_run self subject run preload w = (Raise e, after))
  /\ (eegbci_load_data cfg subject [run] (VStr "ERROR") (Some BASE_URL) = Ok [] ->
      _load_one_run self subject run preload w = (Raise IndexError, after))
  /\ (forall fname rest e,
        eegbci_load_data cfg subject [run] (VStr "ERROR") (Some BASE_URL)
        = Ok (fname :: rest) ->
        read_raw_edf fname preload (VStr "ERROR") = Raise e ->
        _load_one_run self subject run preload w = (Raise e, after)).
Proof.
  intros cfg after. split; [|split].
  - intros e. apply load_one_run_download_raises.
  - apply load_one_run_no_file.
  - intros fname rest e. apply load_one_run_decode_raises.
Qed.

(** *** Events outside the recording, events at one offset *)

Lemma np_index_None (len : nat) (i : Z) :
  ~ (- Z.of_nat len <= i < Z.of_nat len) -> np_index len i = None.
Proof.
  intros H. unfold np_index.
  destruct (Z.leb_spec 0 i), (Z.ltb_spec i (Z.of_nat len)),
    (Z.ltb_spec i 0), (Z.leb_spec (- Z.of_nat len) i); simpl; try reflexivity; lia.
Qed.

Lemma np_index_Some (len : nat) (i : Z) :
  - Z.of_nat len <= i < Z.of_nat len ->
  exists k, (k < len)%nat /\ np_index len i = Some k.
Proof.
  intros H. unfold np_index.
  destruct (Z.leb_spec 0 i), (Z.ltb_spec i (Z.of_nat len)),
    (Z.ltb_spec i 0), (Z.leb_spec (- Z.of_nat len) i); simpl; try lia.
  - exists (Z.to_nat i). split; [lia | reflexivity].
  - exists (Z.to_nat (Z.of_nat len + i)). split; [lia | reflexivity].
Qed.

Lemma write_events_out_of_range (events : list event) (row : list sample) (w : world) :
  Exists (fun e => ~ offset_indexable (length row) e) events ->
  for_each events
    (fun stim_channel event =>
       lift (np_setitem stim_channel 0 (ev_sample event) (of_int (ev_code event))))
    [row] w
  = (Raise IndexError, w).
Proof.
  revert row. induction events as [|e events IH]; intros row Hex.
  - inversion Hex.
  - simpl. unfold bind, lift, np_setitem. simpl.
    destruct (Z_le_dec (- Z.of_nat (length row)) (ev_sample e)) as [Hlo|Hlo];
      [destruct (Z_lt_dec (ev_sample e) (Z.of_nat (length row))) as [Hhi|Hhi]|].
    + destruct (np_index_Some (length row) (ev_sample e)) as (k & Hk & ->); [lia|].
      rewrite <- (length_insert row k (of_int (ev_code e))) in Hex.
      apply IH. apply Exists_cons in Hex as [Hbad|Htl]; [|exact Htl].
      exfalso. apply Hbad. unfold offset_indexable. rewrite length_insert. lia.
    + rewrite np_index_None by lia. reflexivity.
    + rewrite np_index_None by lia. reflexivity.
Qed.

Lemma load_one_run_upto_events self subject run w raw0 events :
  library_decodes (ensure_config (config w) !! CONFIG_KEY) subject run raw0 events ->
  _load_one_run self subject run true w
  = bind
      (for_each events
         (fun stim_channel event =>
            lift (np_setitem stim_channel 0 (ev_sample event)
                    (of_int (ev_code event))))
         (np_zeros 1 (n_times (prepared raw0))))
      (fun stim_channel =>
         bind
           (add_channels (length (heap w))
              [RawArray stim_channel
                 (create_info ["STI 014"] (sfreq (prepared raw0)) ["stim"])])
           (fun raw => ret raw))
      (mkWorld (ensure_config (config w)) (requests w ++ [run_request subject run])
         (heap w ++ [prepared raw0])).
Proof.
  intros Hs. unfold library_decodes in Hs. cbv zeta in Hs.
  destruct Hs as ((fname & rest & Hload & Hread) & Hr1 & Hr2 & Hr3 & Hm & (ids & Hev)).
  unfold _load_one_run. rewrite ensure_step.
  set (c := ensure_config (config w)) in *.
  set (q := requests w ++ [run_request subject run]).
  set (h := heap w).
  erewrite bind_ok; cycle 1.
  { unfold load_data. simpl. rewrite Hload. reflexivity. }
  erewrite bind_ok by reflexivity.
  erewrite bind_ok; cycle 1.
  { unfold read_raw_edf_new, lift, bind. rewrite Hread. reflexivity. }
  simpl heap. fold h. fold q.
  erewrite bind_ok by (apply rename_channels_newest; exact Hr1).
  erewrite bind_ok by (apply rename_channels_newest; exact Hr2).
  erewrite bind_ok by (apply rename_channels_dict_newest; exact Hr3).
  unfold make_standard_montage.
  erewrite bind_ok; cycle 1.
  { apply set_montage_newest. simpl. exact Hm. }
  cbn [config requests heap]. fold (run_request subject run). fold q.
  match goal with
  | |- bind _ _ (mkWorld c q (h ++ [?r])) = _ => replace r with (prepared raw0)
  end.
  2:{ unfold prepared, with_montage, with_ch_names, ChannelNames.normalize_name. simpl.
      f_equal. rewrite <- !list_fmap_compose. reflexivity. }
  erewrite bind_ok; cycle 1.
  { unfold events_of. erewrite bind_ok by apply read_raw_newest.
    rewrite Hev. reflexivity. }
  lazy beta iota.
  erewrite bind_ok by apply read_raw_newest.
  reflexivity.
Qed.

(** X4. When the library serves the run up to its events and one of them
    lies outside the recording (before [-n_times] or from [n_times] on),
    [_load_one_run] raises IndexError: the object it created is left in
    the store without a marker channel, and none is returned. *)
Theorem load_one_run_event_outside_recording self subject run w raw0 events :
  library_decodes (ensure_config (config w) !! CONFIG_KEY) subject run raw0 events ->
  Exists (fun e => ~ offset_indexable (n_times raw0) e) events ->
  _load_one_run self subject run true w
  = (Raise IndexError,
     mkWorld (ensure_config (config w)) (requests w ++ [run_request subject run])
       (heap w ++ [prepared raw0])).
Proof.
  intros Hs Hex. rewrite (load_one_run_upto_events self subject run w raw0 events Hs).
  apply bind_raise. unfold np_zeros. simpl replicate.
  apply write_events_out_of_range. now rewrite length_replicate.
Qed.

(** X3. When several decoded events share an offset, the marker channel
    holds there the code of the last of them. *)
Theorem marker_holds_last_event_of_an_offset
    self subject run w raw0 events before e after :
  library_serves (ensure_config (config w) !! CONFIG_KEY) subject run raw0 events ->
  offsets_in_range (n_times raw0) events ->
  events = before ++ e :: after ->
  ev_sample e ∉ (ev_sample <$> after) ->
  exists (raw : ref) (r : Raw sample) (stim : list sample),
    (_load_one_run self subject run true w).1 = Ok raw
    /\ heap (_load_one_run self subject run true w).2 !! raw = Some r
    /\ _data r = _data raw0 ++ [stim]
    /\ stim !! Z.to_nat (ev_sample e) = Some (of_int (ev_code e)).
Proof.
  intros Hs Hr Hsplit Hlast.
  exists (length (heap w)), (with_stim raw0 events), (stim_row (n_times raw0) events).
  rewrite (load_one_run_ok self subject run w raw0 events Hs Hr). simpl.
  split; [reflexivity|]. split; [apply lookup_newest|]. split; [reflexivity|].
  subst events. unfold offsets_in_range in Hr.
  apply Forall_app in Hr as [Hb Hr]. apply Forall_cons in Hr as [He Ha].
  unfold stim_row. rewrite foldl_app. simpl. rewrite write_events_other.
  - apply list_lookup_insert_eq.
    change (foldl _ (replicate (n_times raw0) (of_int 0)) before)
      with (stim_row (n_times raw0) before).
    rewrite stim_row_length. lia.
  - intros e' He' Heq. apply Hlast.
    rewrite List.Forall_forall in Ha.
    assert (Hre : 0 <= ev_sample e' < Z.of_nat (n_times raw0)).
    { apply Ha. now apply list_elem_of_In. }
    replace (ev_sample e) with (ev_sample e') by lia.
    now apply list_elem_of_fmap_2.
Qed.

(** *** The objects already in the store *)

Lemma ko_ret {A : Type} (n : nat) (a : A) (Q : A -> Prop) :
  Q a -> keeps_objects n (ret a) Q.
Proof. intros H w _. split; [reflexivity|]. now intros a' [= <-]. Qed.

Lemma ko_ret_any {A : Type} (n : nat) (a : A) :
  keeps_objects n (ret a) (fun _ => True).
Proof. now apply ko_ret. Qed.

Lemma ko_raise {A : Type} (n : nat) (e : exn) (Q : A -> Prop) :
  keeps_objects n (raise e) Q.
Proof. intros w _. split; [reflexivity|]. intros a H. discriminate H. Qed.

Lemma ko_lift {A : Type} (n : nat) (r : result A) :
  keeps_objects n (lift r) (fun _ => True).
Proof. intros w _. now split. Qed.

Lemma ko_bind {A B : Type} (n : nat) (c : M A) (k : A -> M B)
    (Q : A -> Prop) (R : B -> Prop) :
  keeps_objects n c Q ->
  (forall a, Q a -> keeps_objects n (k a) R) ->
  keeps_objects n (bind c k) R.
Proof.
  intros Hc Hk w Hw. unfold bind.
  destruct (Hc w Hw) as [Ht HQ]. destruct (c w) as [[a|e] w1]; simpl in *.
  - assert (Hw1 : (n <= length (heap w1))%nat).
    { apply (f_equal length) in Ht. rewrite !length_take in Ht. lia. }
    destruct (Hk a (HQ a eq_refl) w1 Hw1) as [Ht' HR].
    split; [now rewrite Ht'|exact HR].
  - split; [exact Ht|]. intros b H. discriminate H.
Qed.

Lemma ko_for_each {A S : Type} (n : nat) (xs : list A) (body : S -> A -> M S)
    (I : S -> Prop) (s : S) :
  (forall s x, I s -> keeps_objects n (body s x) I) ->
  I s -> keeps_objects n (for_each xs body s) I.
Proof.
  intros Hb. revert s. induction xs as [|x xs IH]; intros s Hs; simpl.
  - now apply ko_ret.
  - eapply ko_bind; [now apply Hb | exact IH].
Qed.

Lemma ko_get_config n key : keeps_objects n (get_config key) (fun _ => True).
Proof. intros w _. now split. Qed.

Lemma ko_set_config n key value :
  keeps_objects n (set_config key value) (fun _ => True).
Proof. intros w _. now split. Qed.

Lemma ko_load_data n subject runs verbose base_url :
  keeps_objects n (load_data subject runs verbose base_url) (fun _ => True).
Proof. intros w _. now split. Qed.

Lemma ko_getitem0 n paths : keeps_objects n (getitem0 paths) (fun _ => True).
Proof. destruct paths; [apply ko_raise | now apply ko_ret]. Qed.

Lemma ko_read_raw n p : keeps_objects n (read_raw p) (fun _ => True).
Proof. intros w _. unfold read_raw. now destruct (heap w !! p). Qed.

Lemma ko_new_raw n r : keeps_objects n (new_raw r) (fun p => (n <= p)%nat).
Proof.
  intros w Hw. unfold new_raw. simpl. split.
  - now apply take_app_le.
  - now intros a [= <-].
Qed.

Lemma ko_modify_raw n p f :
  (n <= p)%nat -> keeps_objects n (modify_raw p f) (fun _ => True).
Proof.
  intros Hp w _. unfold modify_raw. simpl. split; [|easy].
  now apply take_alter_ge.
Qed.

Create HintDb ko discriminated.
#[local] Hint Resolve ko_raise ko_lift ko_get_config ko_set_config ko_load_data
  ko_getitem0 ko_read_raw ko_new_raw ko_modify_raw : ko.

(** Splits a computation along its binds and case distinctions, the
    postcondition of each step being found by the step itself. *)
Ltac ko_step :=
  lazymatch goal with
  | |- keeps_objects _ (bind _ _) _ => eapply ko_bind; [| intros ? ?]
  | |- keeps_objects _ (ret _) _ =>
      first [apply ko_ret_any | apply ko_ret; first [assumption | reflexivity]]
  | |- keeps_objects _ (raise _) _ => apply ko_raise
  | |- keeps_objects _ (match ?x with _ => _ end) _ => destruct x
  | |- keeps_objects _ (let '(_, _) := ?x in _) _ => destruct x
  | |- _ => solve [eauto with ko]
  end.
Ltac ko := repeat ko_step.

Lemma ko_read_raw_edf_new n fname preload verbose :
  keeps_objects n (read_raw_edf_new fname preload verbose) (fun p => (n <= p)%nat).
Proof. unfold read_raw_edf_new. ko. Qed.

Lemma ko_rename_channels n p f :
  (n <= p)%nat -> keeps_objects n (rename_channels p f) (fun _ => True).
Proof. intros Hp. unfold rename_channels. ko. Qed.

Lemma ko_rename_channels_dict n p d :
  (n <= p)%nat -> keeps_objects n (rename_channels_dict p d) (fun _ => True).
Proof. intros Hp. unfold rename_channels_dict. ko. Qed.

Lemma ko_set_montage n p m :
  (n <= p)%nat -> keeps_objects n (set_montage p m) (fun _ => True).
Proof. intros Hp. unfold set_montage. ko. Qed.

Lemma ko_events_of n p : keeps_objects n (events_of p) (fun _ => True).
Proof. unfold events_of. ko. Qed.

Lemma ko_add_channels n p others :
  (n <= p)%nat -> keeps_objects n (add_channels p others) (fun p' => (n <= p')%nat).
Proof. intros Hp. unfold add_channels. ko. Qed.

Lemma ko_data_row n p i : keeps_objects n (data_row p i) (fun _ => True).
Proof. unfold data_row. ko. Qed.

Lemma ko_view_eq n v c : keeps_objects n (view_eq v c) (fun _ => True).
Proof. unfold view_eq. ko. Qed.

Lemma ko_data_setitem_where n p i mask c :
  (n <= p)%nat -> keeps_objects n (data_setitem_where p i mask c) (fun _ => True).
Proof. intros Hp. unfold data_setitem_where. ko. Qed.

#[local] Hint Resolve ko_read_raw_edf_new ko_rename_channels ko_rename_channels_dict
  ko_set_montage ko_events_of ko_add_channels ko_data_row ko_view_eq
  ko_data_setitem_where : ko.

Lemma ko_load_one_run n self subject run preload :
  keeps_objects n (_load_one_run self subject run preload) (fun p => (n <= p)%nat).
Proof.
  unfold _load_one_run. ko.
  apply (ko_for_each n _ _ (fun _ => True)); [|exact I].
  intros s x _. apply ko_lift.
Qed.

#[local] Hint Resolve ko_load_one_run : ko.

(** Every reference of the mapping is to an object from [n] on. *)
Let refs_from (n : nat) (data : gmap string ref) : Prop :=
  forall label p, data !! label = Some p -> (n <= p)%nat.

Lemma refs_from_insert n data label p :
  refs_from n data -> (n <= p)%nat -> refs_from n (<[label := p]> data).
Proof.
  intros Hd Hp label' p' H. destruct (decide (label = label')) as [->|Hne].
  - rewrite lookup_insert_eq in H. now injection H as <-.
  - rewrite lookup_insert_ne in H by exact Hne. now apply (Hd label').
Qed.

Lemma ko_get_single_subject_data n self subject :
  keeps_objects n (_get_single_subject_data self subject)
    (fun res => forall s data, res !! s = Some data -> refs_from n data).
Proof.
  unfold _get_single_subject_data. ko.
  - eapply (ko_for_each n _ _ (refs_from n)).
    + intros data run Hdata. ko. apply ko_ret. apply refs_from_insert; assumption.
    + apply refs_from_insert; [apply refs_from_insert|]; try assumption.
      intros label p Hl. now rewrite lookup_empty in Hl.
  - eapply (ko_for_each n _ _ (refs_from n)); [|assumption].
    intros data run Hdata. ko. apply ko_ret. apply refs_from_insert; assumption.
  - apply ko_ret. intros s data Hs.
    destruct (decide (s = "session_0")) as [->|Hne].
    + rewrite lookup_singleton_eq in Hs. now injection Hs as <-.
    + now rewrite lookup_singleton_ne in Hs.
Qed.

Lemma data_path_heap self subject path force_update update_path verbose w :
  heap (data_path self subject path force_update update_path verbose w).2 = heap w.
Proof.
  destruct (decide (subject ∈ subject_list self)) as [H|H].
  - now rewrite data_path_valid.
  - now rewrite data_path_invalid.
Qed.

(** X7. A recording object that is in the store is left as it is by
    [_load_one_run], [_get_single_subject_data] and [data_path], whether
    they return or raise; the references the first two return are to
    objects created by the call. *)
Theorem earlier_recordings_are_left_alone
    self subject run preload path force_update update_path verbose w p r :
  heap w !! p = Some r ->
  heap (_load_one_run self subject run preload w).2 !! p = Some r
  /\ heap (_get_single_subject_data self subject w).2 !! p = Some r
  /\ heap (data_path self subject path force_update update_path verbose w).2 !! p
     = Some r
  /\ (forall raw, (_load_one_run self subject run preload w).1 = Ok raw ->
        (length (heap w) <= raw)%nat)
  /\ (forall res data label q,
        (_get_single_subject_data self subject w).1 = Ok res ->
        res !! "session_0" = Some data -> data !! label = Some q ->
        (length (heap w) <= q)%nat).
Proof.
  intros Hp.
  assert (Hlt : (p < length (heap w))%nat) by (eapply lookup_lt_Some; eassumption).
  destruct (ko_load_one_run (length (heap w)) self subject run preload w (le_n _))
    as [Hl1 Hl2].
  destruct (ko_get_single_subject_data (length (heap w)) self subject w (le_n _))
    as [Hg1 Hg2].
  rewrite (take_ge (heap w)) in Hl1, Hg1 by lia.
  split.
  { rewrite <- (lookup_take_lt _ (length (heap w))) by exact Hlt. now rewrite Hl1. }
  split.
  { rewrite <- (lookup_take_lt _ (length (heap w))) by exact Hlt. now rewrite Hg1. }
  split; [now rewrite data_path_heap|].
  split; [exact Hl2|].
  intros res data label q Hres Hs Hq. exact (Hg2 res Hres _ _ Hs _ _ Hq).
Qed.

(** *** The loops as one loop over the plan *)

Lemma bind_ret_l {A B : Type} (a : A) (k : A -> M B) (w : world) :
  bind (ret a) k w = k a w.
Proof. reflexivity. Qed.

Lemma bind_assoc {A B C : Type} (c : M A) (k : A -> M B) (k' : B -> M C) (w : world) :
  bind (bind c k) k' w = bind c (fun a => bind (k a) k') w.
Proof. unfold bind. now destruct (c w) as [[a|e] w1]. Qed.

Lemma bind_ext {A B : Type} (c : M A) (k k' : A -> M B) (w : world) :
  (forall a w', k a w' = k' a w') -> bind c k w = bind c k' w.
Proof. intros H. unfold bind. destruct (c w) as [[a|e] w1]; [apply H | reflexivity]. Qed.

Lemma for_each_app_bind {A S B : Type} (l1 l2 : list A) (body : S -> A -> M S)
    (K : S -> M B) :
  forall (s : S) (w : world),
    bind (for_each (l1 ++ l2) body s) K w
    = bind (for_each l1 body s) (fun s' => bind (for_each l2 body s') K) w.
Proof.
  induction l1 as [|x l1 IH]; intros s w; simpl; [reflexivity|].
  rewrite !bind_assoc. apply bind_ext. intros s' w'. apply IH.
Qed.

Lemma for_each_fmap_bind {A A' S B : Type} (f : A -> A') (xs : list A)
    (body : S -> A' -> M S) (K : S -> M B) :
  forall (s : S) (w : world),
    bind (for_each (f <$> xs) body s) K w
    = bind (for_each xs (fun s x => body s (f x)) s) K w.
Proof.
  induction xs as [|x xs IH]; intros s w; simpl; [reflexivity|].
  rewrite !bind_assoc. apply bind_ext. intros s' w'. apply IH.
Qed.

Lemma get_single_subject_data_plan self subject w :
  _get_single_subject_data self subject w
  = bind (for_each (session_plan self) (store_entry self subject) ∅)
      (fun data => ret {["session_0" := data]})
      (mkWorld (ensure_config (config w)) (requests w) (heap w)).
Proof.
  unfold _get_single_subject_data. rewrite ensure_step. symmetry.
  unfold session_plan.
  cbn [app for_each]. unfold store_entry at 1 2. cbn [entry_feet entry_run entry_label].
  rewrite !bind_assoc. apply bind_ext. intros raw1 w1.
  rewrite bind_ret_l, !bind_assoc. apply bind_ext. intros raw2 w2.
  rewrite bind_ret_l, for_each_app_bind, for_each_fmap_bind.
  apply bind_ext. intros data w3.
  rewrite for_each_fmap_bind. reflexivity.
Qed.

(** *** A run that cannot be downloaded *)

Lemma store_entry_ok self subject c q h data e raw0 events :
  c !! CONFIG_KEY <> None ->
  library_serves (c !! CONFIG_KEY) subject (entry_run e)
    (raw0 (entry_run e)) (events (entry_run e)) ->
  offsets_in_range (n_times (raw0 (entry_run e))) (events (entry_run e)) ->
  store_entry self subject data e (mkWorld c q h)
  = (Ok (<[entry_label e := length h]> data),
     mkWorld c (q ++ [run_request subject (entry_run e)])
       (h ++ [entry_object raw0 events e])).
Proof.
  intros Hc Hs Hr. unfold store_entry, entry_object.
  erewrite bind_ok by (apply load_one_run_configured; eassumption).
  destruct (entry_feet e); [|reflexivity].
  erewrite remap_block by apply with_stim_data. reflexivity.
Qed.

Lemma store_entry_download_raises self subject c q h data e err :
  c !! CONFIG_KEY <> None ->
  eegbci_load_data (c !! CONFIG_KEY) subject [entry_run e]
    (VStr "ERROR") (Some BASE_URL) = Raise err ->
  store_entry self subject data e (mkWorld c q h)
  = (Raise err, mkWorld c (q ++ [run_request subject (entry_run e)]) h).
Proof.
  intros Hc Hd. unfold store_entry. apply bind_raise.
  pose proof (load_one_run_download_raises self subject (entry_run e) true
                (mkWorld c q h) err) as H.
  cbn [config requests heap] in H. rewrite (ensure_config_when_set c Hc) in H.
  exact (H Hd).
Qed.

Lemma plan_stops self subject c raw0 events (pre : list entry) (e0 : entry)
    (post : list entry) (err : exn) :
  c !! CONFIG_KEY <> None ->
  (forall e, e ∈ pre ->
     library_serves (c !! CONFIG_KEY) subject (entry_run e)
       (raw0 (entry_run e)) (events (entry_run e))
     /\ offsets_in_range (n_times (raw0 (entry_run e))) (events (entry_run e))) ->
  eegbci_load_data (c !! CONFIG_KEY) subject [entry_run e0]
    (VStr "ERROR") (Some BASE_URL) = Raise err ->
  forall data q h,
    for_each (pre ++ e0 :: post) (store_entry self subject) data (mkWorld c q h)
    = (Raise err,
       mkWorld c (q ++ (run_request subject <$> (entry_run <$> pre ++ [e0])))
         (h ++ (entry_object raw0 events <$> pre))).
Proof.
  intros Hc Hpre Hd. induction pre as [|e pre IH]; intros data q h.
  - cbn [app for_each fmap list_fmap]. rewrite app_nil_r.
    apply bind_raise. now apply store_entry_download_raises.
  - destruct (Hpre e) as [Hs Hr]; [left|].
    cbn [app for_each].
    erewrite bind_ok by (apply store_entry_ok; eassumption).
    rewrite IH by (intros e' He'; apply Hpre; now right).
    rewrite !fmap_cons, <- !app_assoc. reflexivity.
Qed.

(** X12. When the runs before some run of the plan are served and the
    download of that run raises, [_get_single_subject_data] raises that
    error and returns no mapping: the runs after it are not requested,
    and the objects of the runs before it stay in the store. *)
Theorem fetch_stops_at_the_first_missing_run
    self subject w raw0 events pre e0 post err :
  let cfg := ensure_config (config w) !! CONFIG_KEY in
  session_plan self = pre ++ e0 :: post ->
  (forall e, e ∈ pre ->
     library_serves cfg subject (entry_run e)
       (raw0 (entry_run e)) (events (entry_run e))
     /\ offsets_in_range (n_times (raw0 (entry_run e))) (events (entry_run e))) ->
  eegbci_load_data cfg subject [entry_run e0] (VStr "ERROR") (Some BASE_URL)
  = Raise err ->
  _get_single_subject_data self subject w
  = (Raise err,
     mkWorld (ensure_config (config w))
       (requests w ++ (run_request subject <$> (entry_run <$> pre ++ [e0])))
       (heap w ++ (entry_object raw0 events <$> pre))).
Proof.
  intros cfg Hplan Hpre Hd.
  rewrite get_single_subject_data_plan, Hplan.
  apply bind_raise.
  apply plan_stops; [apply ensure_config_set | exact Hpre | exact Hd].
Qed.

(** *** Labels and runs *)

Lemma to_int_not_nil (z : Z) :
  Z.to_int z <> Decimal.Pos Decimal.Nil /\ Z.to_int z <> Decimal.Neg Decimal.Nil.
Proof.
  split; intros H; pose proof (f_equal Z.of_int H) as H';
    rewrite DecimalZ.of_to in H'; simpl in H'; subst z;
    vm_compute in H; discriminate H.
Qed.

Lemma format_d_inj (a b : Z) : format_d a = format_d b -> a = b.
Proof.
  intros H. unfold format_d in H.
  apply (f_equal NilZero.int_of_string) in H.
  destruct (to_int_not_nil a) as [Ha1 Ha2], (to_int_not_nil b) as [Hb1 Hb2].
  rewrite !NilZero.isi in H by assumption.
  injection H as H. apply (f_equal Z.of_int) in H.
  now rewrite !DecimalZ.of_to in H.
Qed.

Lemma run_label_inj (a b : Z) : run_label a = run_label b -> a = b.
Proof.
  unfold run_label. rewrite !append_cons, !append_empty_l.
  intros [= H]. now apply format_d_inj.
Qed.

Lemma run_label_not_baseline (run : Z) :
  run_label run <> "baseline_eye_open" /\ run_label run <> "baseline_eye_closed".
Proof. unfold run_label. rewrite !append_cons. split; discriminate. Qed.

Lemma run_labels_eq self :
  run_labels self
  = "baseline_eye_open" :: "baseline_eye_closed"
      :: (run_label <$> hand_runs self ++ feet_runs self).
Proof.
  unfold run_labels, session_plan.
  now rewrite !fmap_app, <- !list_fmap_compose.
Qed.

(** X10. Distinct run indices get distinct labels, and no run label is a
    baseline label.  So, whatever the run lists of the dataset object,
    the labels of the session mapping are pairwise distinct exactly when
    no run occurs twice among the hand and feet runs. *)
Theorem labels_distinct_iff_runs_distinct :
  (forall a b : Z, run_label a = run_label b -> a = b)
  /\ (forall self : PhysionetMI,
        NoDup (run_labels self) <-> NoDup (hand_runs self ++ feet_runs self)).
Proof.
  split; [exact run_label_inj|]. intros self. rewrite run_labels_eq.
  assert (Hinj : Inj (=) (=) run_label) by exact run_label_inj.
  rewrite !NoDup_cons, (NoDup_fmap run_label).
  assert (Hb : forall (b : string) (l : list Z),
             (forall run, run_label run <> b) -> b ∉ run_label <$> l).
  { intros b l Hne Hin. apply list_elem_of_fmap_1 in Hin as (run & -> & _).
    now apply (Hne run). }
  split; [now intros (_ & _ & H)|]. intros H. split; [|split; [|exact H]].
  - apply not_elem_of_cons. split; [discriminate|].
    apply Hb. intros run. apply run_label_not_baseline.
  - apply Hb. intros run. apply run_label_not_baseline.
Qed.

Lemma store_labels_lookup_last (pre post : list string) (label : string)
    (p : ref) (d : gmap string ref) :
  label ∉ post ->
  store_labels p (pre ++ label :: post) d !! label = Some (p + length pre)%nat.
Proof.
  intros Hnot. rewrite store_labels_app. simpl.
  rewrite store_labels_lookup_ne by exact Hnot.
  rewrite lookup_insert_eq. f_equal. lia.
Qed.

Lemma store_labels_size_le (labels : list string) :
  forall (p : ref) (d : gmap string ref),
    (size (store_labels p labels d) <= size d + length labels)%nat.
Proof.
  induction labels as [|l labels IH]; intros p d; simpl; [lia|].
  specialize (IH (S p) (<[l := p]> d)). rewrite map_size_insert in IH.
  destruct (d !! l); simpl in IH; lia.
Qed.

Lemma run_labels_nodup_iff self :
  NoDup (run_labels self) <-> NoDup (hand_runs self ++ feet_runs self).
Proof.
  rewrite run_labels_eq.
  assert (Hinj : Inj (=) (=) run_label) by exact run_label_inj.
  rewrite !NoDup_cons, (NoDup_fmap run_label).
  assert (Hb : forall (b : string) (l : list Z),
             (forall run, run_label run <> b) -> b ∉ run_label <$> l).
  { intros b l Hne Hin. apply list_elem_of_fmap_1 in Hin as (run & -> & _).
    now apply (Hne run). }
  split; [now intros (_ & _ & H)|]. intros H. split; [|split; [|exact H]].
  - apply not_elem_of_cons. split; [discriminate|].
    apply Hb. intros run. apply run_label_not_baseline.
  - apply Hb. intros run. apply run_label_not_baseline.
Qed.

Lemma size_list_to_set_repeated (l : list string) :
  (size (list_to_set l : gset string) <= length l)%nat
  /\ (~ NoDup l -> (size (list_to_set l : gset string) < length l)%nat).
Proof.
  induction l as [|x l [IHle IHlt]].
  - split; [rewrite list_to_set_nil, size_empty; simpl; lia|].
    intros H. destruct H. constructor.
  - rewrite list_to_set_cons. cbn [length]. destruct (decide (x ∈ l)) as [Hin|Hnot].
    + assert (Heq : ({[x]} ∪ list_to_set l : gset string) = list_to_set l).
      { apply subseteq_union_1_L, singleton_subseteq_l, elem_of_list_to_set, Hin. }
      rewrite Heq. split; [lia|]. intros _. lia.
    + rewrite size_union, size_singleton
        by (apply disjoint_singleton_l; rewrite elem_of_list_to_set; exact Hnot).
      split; [lia|]. intros Hnd.
      assert (~ NoDup l) as Hl by (intros Hl; apply Hnd; now constructor).
      specialize (IHlt Hl). lia.
Qed.

Lemma session_data_size_repeated self p :
  ~ NoDup (hand_runs self ++ feet_runs self) ->
  (size (session_data self p) < length (session_plan self))%nat.
Proof.
  intros Hnd. rewrite <- size_dom, session_data_dom.
  rewrite <- (length_fmap entry_label (session_plan self)).
  apply (size_list_to_set_repeated (run_labels self)).
  now rewrite run_labels_nodup_iff.
Qed.

(** X13. Whatever the run lists of the dataset object, a label of the
    returned mapping holds the object of the last entry of the plan that
    carries it: when a run occurs twice, the recording fetched first is
    replaced under its label by the one fetched last.  The mapping never
    has more entries than the plan; it has fewer entries than fetches
    when a run occurs twice among the hand and feet runs, and as many
    when none does. *)
Theorem label_holds_the_last_fetch self subject w raw0 events pre e post :
  serves_subject self subject w raw0 events ->
  session_plan self = pre ++ e :: post ->
  entry_label e ∉ (entry_label <$> post) ->
  exists data : gmap string ref,
    (_get_single_subject_data self subject w).1 = Ok {["session_0" := data]}
    /\ data !! entry_label e = Some (length (heap w) + length pre)%nat
    /\ heap (_get_single_subject_data self subject w).2
         !! (length (heap w) + length pre)%nat
       = Some (entry_object raw0 events e)
    /\ (size data <= length (session_plan self))%nat
    /\ (~ NoDup (hand_runs self ++ feet_runs self) ->
          (size data < length (session_plan self))%nat)
    /\ (NoDup (hand_runs self ++ feet_runs self) ->
          size data = length (session_plan self)).
Proof.
  intros Hs Hplan Hlast.
  rewrite (get_single_subject_data_ok self subject w raw0 events Hs).
  cbn [fst snd heap].
  exists (session_data self (length (heap w))). split; [reflexivity|].
  split.
  { unfold session_data, run_labels. rewrite Hplan, fmap_app, fmap_cons.
    rewrite store_labels_lookup_last by exact Hlast. now rewrite length_fmap. }
  split.
  { rewrite lookup_app_r by lia.
    replace (length (heap w) + length pre - length (heap w))%nat
      with (length pre) by lia.
    unfold session_objects. rewrite Hplan, fmap_app, fmap_cons.
    rewrite <- (length_fmap (entry_object raw0 events) pre).
    apply lookup_newest_app. }
  split.
  { unfold session_data.
    pose proof (store_labels_size_le (run_labels self) (length (heap w)) ∅) as H.
    rewrite map_size_empty in H. unfold run_labels in H.
    now rewrite length_fmap in H. }
  split; [apply session_data_size_repeated|].
  intros Hnd. apply session_data_size. now apply run_labels_nodup_iff.
Qed.

(** *** Calls in sequence *)

Lemma serves_subject_config self subject w w' raw0 events :
  config w' = ensure_config (config w) ->
  serves_subject self subject w raw0 events ->
  serves_subject self subject w' raw0 events.
Proof.
  intros Hc Hs run Hrun. rewrite Hc.
  rewrite (ensure_config_when_set _ (ensure_config_set (config w))).
  now apply Hs.
Qed.

(** X8. Two fetches in a row, of one subject then another, both served:
    each label of the first mapping and each label of the second holds
    its own object in the final store; the second fetch adds its objects
    after those of the first and leaves them as they are. *)
Theorem two_fetches_keep_both_sessions
    imagined executed subject1 subject2 w raw1 events1 raw2 events2 :
  let self := __init__ imagined executed in
  let out1 := _get_single_subject_data self subject1 w in
  let out2 := _get_single_subject_data self subject2 out1.2 in
  serves_subject self subject1 w raw1 events1 ->
  serves_subject self subject2 w raw2 events2 ->
  exists data1 data2 : gmap string ref,
    out1.1 = Ok {["session_0" := data1]}
    /\ out2.1 = Ok {["session_0" := data2]}
    /\ forall (i : nat) (e : entry),
         session_plan self !! i = Some e ->
         exists p1 p2 : ref,
           data1 !! entry_label e = Some p1
           /\ data2 !! entry_label e = Some p2
           /\ p1 <> p2
           /\ heap out1.2 !! p1 = Some (entry_object raw1 events1 e)
           /\ heap out2.2 !! p1 = Some (entry_object raw1 events1 e)
           /\ heap out2.2 !! p2 = Some (entry_object raw2 events2 e).
Proof.
  intros self out1 out2 Hs1 Hs2. subst out2 out1.
  pose proof (run_labels_nodup imagined executed) as Hnd. fold self in Hnd.
  rewrite (get_single_subject_data_ok self subject1 w raw1 events1 Hs1).
  cbn [fst snd].
  set (h1 := heap w ++ session_objects self raw1 events1).
  match goal with
  | |- context [_get_single_subject_data self subject2 ?w1] =>
      rewrite (get_single_subject_data_ok self subject2 w1 raw2 events2
                 (serves_subject_config self subject2 w w1 raw2 events2 eq_refl Hs2))
  end.
  cbn [fst snd heap].
  exists (session_data self (length (heap w))), (session_data self (length h1)).
  split; [reflexivity|]. split; [reflexivity|].
  intros i e Hi.
  destruct (session_entry self raw1 events1 (heap w) i e Hnd Hi) as [Hd1 Ho1].
  destruct (session_entry self raw2 events2 h1 i e Hnd Hi) as [Hd2 Ho2].
  exists (length (heap w) + i)%nat, (length h1 + i)%nat.
  split; [exact Hd1|]. split; [exact Hd2|].
  assert (Hlen : (length (heap w) + i < length h1)%nat).
  { eapply lookup_lt_Some. exact Ho1. }
  split; [lia|]. split; [exact Ho1|]. split; [|exact Ho2].
  rewrite lookup_app_l by exact Hlen. exact Ho1.
Qed.

(** X9. Calling [data_path] before the fetch of a served subject changes
    nothing of what the fetch returns and stores.  Its single request
    names the runs that the fetch then requests one by one, in the same
    order, but with the caller's [verbose] and without the adapter's base
    URL. *)
Theorem data_path_before_fetch
    self subject path force_update update_path verbose w raw0 events :
  let w1 := (data_path self subject path force_update update_path verbose w).2 in
  subject ∈ subject_list self ->
  serves_subject self subject w raw0 events ->
  (_get_single_subject_data self subject w1).1
  = (_get_single_subject_data self subject w).1
  /\ heap (_get_single_subject_data self subject w1).2
     = heap (_get_single_subject_data self subject w).2
  /\ config (_get_single_subject_data self subject w1).2
     = config (_get_single_subject_data self subject w).2
  /\ requests (_get_single_subject_data self subject w1).2
     = requests w
       ++ mkRequest subject (loaded_runs self) verbose None
       :: ((fun run => mkRequest subject [run] (VStr "ERROR") (Some BASE_URL))
             <$> loaded_runs self).
Proof.
  intros w1 Hin Hs. subst w1.
  rewrite (data_path_valid _ _ _ _ _ _ _ Hin). cbn [snd].
  match goal with
  | |- context [_get_single_subject_data self subject ?w1] =>
      rewrite (get_single_subject_data_ok self subject w1 raw0 events
                 (serves_subject_config self subject w w1 raw0 events eq_refl Hs))
  end.
  rewrite (get_single_subject_data_ok self subject w raw0 events Hs).
  cbn [fst snd config requests heap].
  rewrite (ensure_config_when_set _ (ensure_config_set (config w))).
  rewrite <- loaded_runs_eq, <- app_assoc.
  repeat split; reflexivity.
Qed.

(** *** The remap and the events *)

Lemma remap_code_zero (x : sample) : remap_code x = of_int 0 <-> x = of_int 0.
Proof.
  unfold remap_code.
  destruct (bool_decide (x = of_int 2)) eqn:E2;
    [|destruct (bool_decide (x = of_int 3)) eqn:E3].
  - apply bool_decide_eq_true in E2. subst x.
    split; intros H; apply of_int_inj in H; lia.
  - apply bool_decide_eq_true in E3. subst x.
    split; intros H; apply of_int_inj in H; lia.
  - reflexivity.
Qed.

Lemma remap_code_idem (x : sample) : remap_code (remap_code x) = remap_code x.
Proof.
  destruct (remap_code_never_raw x) as [H2 H3]. now apply remap_code_other.
Qed.

(** X11. The remap of a feet run neither creates nor removes an event:
    the stored marker row has the length of the fetched one and is 0
    exactly at the samples where the fetched one is 0; and remapping an
    already remapped sample changes nothing. *)
Theorem feet_remap_keeps_event_positions imagined executed subject w raw0 events :
  let self := __init__ imagined executed in
  let out := _get_single_subject_data self subject w in
  serves_subject self subject w raw0 events ->
  (forall x : sample, remap_code (remap_code x) = remap_code x)
  /\ exists data : gmap string ref,
       out.1 = Ok {["session_0" := data]}
       /\ forall run, run ∈ feet_runs self ->
            exists (p : ref) (stored : Raw sample) (row : list sample),
              data !! run_label run = Some p
              /\ heap out.2 !! p = Some stored
              /\ last (_data stored) = Some row
              /\ length row = n_times (raw0 run)
              /\ n_times stored = n_times (raw0 run)
              /\ forall j : nat,
                   row !! j = Some (of_int 0)
                   <-> stim_row (n_times (raw0 run)) (events run) !! j
                       = Some (of_int 0).
Proof.
  intros self out Hs. subst out. split; [exact remap_code_idem|].
  rewrite (get_single_subject_data_ok self subject w raw0 events Hs).
  cbn [fst snd heap].
  exists (session_data self (length (heap w))). split; [reflexivity|].
  intros run Hrun.
  destruct (plan_feet self run Hrun) as [i Hi].
  destruct (session_entry self raw0 events (heap w) i _
              (run_labels_nodup imagined executed) Hi) as [Hd Ho].
  set (stim := stim_row (n_times (raw0 run)) (events run)).
  exists (length (heap w) + i)%nat,
    (remapped (with_stim (raw0 run) (events run))), (remap_code <$> stim).
  split; [exact Hd|]. split; [exact Ho|].
  rewrite (remapped_last _ _ _ (with_stim_data (raw0 run) (events run))).
  split; [apply last_snoc|].
  split; [rewrite length_fmap; apply stim_row_length|].
  split; [reflexivity|].
  intros j. rewrite list_lookup_fmap.
  destruct (stim !! j) as [x|]; simpl; [|easy].
  split; intros [= H]; f_equal; now apply remap_code_zero.
Qed.

(** *** What a computation leaves alone *)

Lemma pv_ret {A X : Type} (f : world -> X) (a : A) : preserves f (ret a).
Proof. intros w. reflexivity. Qed.

Lemma pv_raise {A X : Type} (f : world -> X) (e : exn) : preserves f (raise (A := A) e).
Proof. intros w. reflexivity. Qed.

Lemma pv_lift {A X : Type} (f : world -> X) (r : result A) : preserves f (lift r).
Proof. intros w. reflexivity. Qed.

Lemma pv_bind {A B X : Type} (f : world -> X) (c : M A) (k : A -> M B) :
  preserves f c -> (forall a, preserves f (k a)) -> preserves f (bind c k).
Proof.
  intros Hc Hk w. unfold bind. specialize (Hc w).
  destruct (c w) as [[a|e] w1]; simpl in *; [|exact Hc].
  now rewrite Hk.
Qed.

Lemma pv_for_each {A S X : Type} (f : world -> X) (xs : list A)
    (body : S -> A -> M S) (s : S) :
  (forall s x, preserves f (body s x)) -> preserves f (for_each xs body s).
Proof.
  intros Hb. revert s. induction xs as [|x xs IH]; intros s; simpl.
  - apply pv_ret.
  - apply pv_bind; [apply Hb | intros s'; apply IH].
Qed.

Lemma pv_get_config {X : Type} (f : world -> X) key : preserves f (get_config key).
Proof. intros w. reflexivity. Qed.

Lemma pv_getitem0 {X : Type} (f : world -> X) paths : preserves f (getitem0 paths).
Proof. destruct paths; [apply pv_raise | apply pv_ret]. Qed.

Lemma pv_read_raw {X : Type} (f : world -> X) p : preserves f (read_raw p).
Proof. intros w. unfold read_raw. now destruct (heap w !! p). Qed.

Lemma pv_new_raw {X : Type} (f : world -> X) r :
  ignores_heap f -> preserves f (new_raw r).
Proof. intros Hf [c q h]. apply Hf. Qed.

Lemma pv_modify_raw {X : Type} (f : world -> X) p g :
  ignores_heap f -> preserves f (modify_raw p g).
Proof. intros Hf [c q h]. apply Hf. Qed.

Lemma ignores_heap_config : ignores_heap config.
Proof. intros c q h h'. reflexivity. Qed.

Lemma ignores_heap_requests : ignores_heap requests.
Proof. intros c q h h'. reflexivity. Qed.

Create HintDb pv discriminated.
#[local] Hint Resolve pv_ret pv_raise pv_lift pv_get_config pv_getitem0 pv_read_raw
  pv_new_raw pv_modify_raw ignores_heap_config ignores_heap_requests : pv.

(** Splits a computation along its binds and its case distinctions. *)
Ltac pv_step :=
  lazymatch goal with
  | |- preserves _ (bind _ _) => apply pv_bind; [| intros ?]
  | |- preserves _ (for_each _ _ _) => apply pv_for_each; intros ? ?
  | |- preserves _ (match ?x with _ => _ end) => destruct x
  | |- preserves _ (let '(_, _) := ?x in _) => destruct x
  | |- _ => solve [auto with pv]
  end.
Ltac pv := repeat pv_step.

Section Preserved.
Context {X : Type} (f : world -> X) (Hf : ignores_heap f).

Lemma pv_read_raw_edf_new fname preload verbose :
  preserves f (read_raw_edf_new fname preload verbose).
Proof. unfold read_raw_edf_new. pv. Qed.

Lemma pv_rename_channels p g : preserves f (rename_channels p g).
Proof. unfold rename_channels. pv. Qed.

Lemma pv_rename_channels_dict p d : preserves f (rename_channels_dict p d).
Proof. unfold rename_channels_dict. pv. Qed.

Lemma pv_set_montage p m : preserves f (set_montage p m).
Proof. unfold set_montage. pv. Qed.

Lemma pv_events_of p : preserves f (events_of p).
Proof. unfold events_of. pv. Qed.

Lemma pv_add_channels p others : preserves f (add_channels p others).
Proof. unfold add_channels. pv. Qed.

Lemma pv_data_row p i : preserves f (data_row p i).
Proof. unfold data_row. pv. Qed.

Lemma pv_view_eq v c : preserves f (view_eq v c).
Proof. unfold view_eq. pv. Qed.

Lemma pv_data_setitem_where p i mask c :
  preserves f (data_setitem_where p i mask c).
Proof. unfold data_setitem_where. pv. Qed.

End Preserved.

#[local] Hint Resolve pv_read_raw_edf_new pv_rename_channels pv_rename_channels_dict
  pv_set_montage pv_events_of pv_add_channels pv_data_row pv_view_eq
  pv_data_setitem_where : pv.

(** *** The idealised methods are the methods with the ideal effects *)

Lemma load_one_run_ideal self subject run preload :
  load_one_run_io ideal_effects self subject run preload
  = _load_one_run self subject run preload.
Proof. reflexivity. Qed.

Lemma get_single_subject_data_ideal self subject :
  get_single_subject_data_io ideal_effects self subject
  = _get_single_subject_data self subject.
Proof. reflexivity. Qed.

Lemma data_path_ideal self subject path force_update update_path verbose :
  data_path_io ideal_effects self subject path force_update update_path verbose
  = data_path self subject path force_update update_path verbose.
Proof. reflexivity. Qed.

(** *** The check-and-set when [set_config] can raise *)




(** *** [_load_one_run] and [data_path] with the effects *)







(** *** The fetch of a subject with the effects *)





(** *** The requests, whatever the outcome *)








End AdapterFacts.

(** ** The theorems on the concrete library *)

Section Witnesses.
#[local] Existing Instance Example.library.
Import Example.

(** *** The code evaluated on concrete inputs *)

Example normalize_name_examples :
  ChannelNames.normalize_name
    <$> ["Fc5."; "Afz."; "Fp1."; "Iz.."; ".Fz.."; "fz"; "c.3"; "..."; "T9.."]
  = ["FC5"; "AFz"; "Fp1"; "Iz"; "Fz"; "Fz"; "C.3"; ""; "T9"].
Proof. reflexivity. Qed.

Example init_with_both_flags :
  hand_runs (__init__ true true) = [4; 8; 12; 3; 7; 11]
  /\ feet_runs (__init__ true true) = [6; 10; 14; 5; 9; 13]
  /\ hand_runs (__init__ false false) = []
  /\ run_labels (__init__ false true)
     = ["baseline_eye_open"; "baseline_eye_closed"; "run_3"; "run_7"; "run_11";
        "run_5"; "run_9"; "run_13"].
Proof. repeat split; reflexivity. Qed.

Example np_index_examples :
  np_index 6 0 = Some 0%nat /\ np_index 6 (-1) = Some 5%nat
  /\ np_index 6 6 = None /\ np_index 6 (-7) = None /\ np_index 0 (-1) = None.
Proof. repeat split; reflexivity. Qed.

Example np_setitem_examples :
  np_setitem [[0; 0; 0]] 0 1 7 = Ok [[0; 7; 0]]
  /\ np_setitem [[0; 0; 0]] 0 (-1) 7 = Ok [[0; 0; 7]]
  /\ np_setitem [[0; 0; 0]] 0 3 7 = Raise IndexError.
Proof. repeat split; reflexivity. Qed.

Example osp_join_examples :
  osp_join "/home/user" "mne_data" = "/home/user/mne_data"
  /\ osp_join "/" "mne_data" = "/mne_data"
  /\ osp_join "" "mne_data" = "mne_data".
Proof. repeat split; reflexivity. Qed.

Example marker_rows_of_a_session :
  (fun r : Raw Z => last (_data r))
    <$> heap (_get_single_subject_data (__init__ true false) 1 fresh).2
  = [Some [1; 0; 2; 0; 3; 0]; Some [1; 0; 2; 0; 3; 0]; Some [1; 0; 2; 0; 3; 0];
     Some [1; 0; 2; 0; 3; 0]; Some [1; 0; 2; 0; 3; 0]; Some [1; 0; 4; 0; 5; 0];
     Some [1; 0; 4; 0; 5; 0]; Some [1; 0; 4; 0; 5; 0]].
Proof. vm_compute. reflexivity. Qed.

Lemma example_serves (cfg : option string) (subject run : Z) :
  library_serves cfg subject run recording decoded_events.
Proof.
  unfold library_serves. cbv zeta.
  split; [exists (edf_path cfg subject run), []; split; reflexivity|].
  repeat (split; [reflexivity|]).
  split; [eexists; reflexivity | reflexivity].
Qed.

Lemma example_offsets : offsets_in_range (n_times recording) decoded_events.
Proof. unfold offsets_in_range. repeat constructor; simpl; lia. Qed.

Lemma example_serves_subject (self : PhysionetMI) (subject : Z) (w : world) :
  serves_subject self subject w (fun _ => recording) (fun _ => decoded_events).
Proof. intros run _. split; [apply example_serves | apply example_offsets]. Qed.

Lemma load_one_run_appends_marker_channel_witness :
  exists (raw : ref) (r : Raw Z) (stim : list Z),
    (_load_one_run (__init__ true false) 1 4 true fresh).1 = Ok raw
    /\ heap (_load_one_run (__init__ true false) 1 4 true fresh).2 !! raw = Some r
    /\ ch_names r = ["Fz"; "C3"; "Iz"; "STI 014"]
    /\ _data r = _data recording ++ [stim]
    /\ length stim = 6%nat
    /\ stim !! 0%nat = Some 1
    /\ stim !! 1%nat = Some 0
    /\ stim !! 2%nat = Some 2
    /\ stim !! 4%nat = Some 3.
Proof.
  destruct (load_one_run_appends_marker_channel (__init__ true false) 1 4 fresh
              recording decoded_events)
    as (raw & r & stim & H1 & H2 & H3 & _ & H5 & H6 & _ & Hev & Hzero).
  - apply example_serves.
  - apply example_offsets.
  - apply (bool_decide_unpack _). vm_compute. exact I.
  - exists raw, r, stim.
    repeat (split; [assumption|]).
    split; [apply (Hev (mkEvent 0 0 1)); repeat constructor|].
    split.
    { apply (Hzero 1%nat); [simpl; lia|].
      apply (bool_decide_unpack _). vm_compute. exact I. }
    split; [apply (Hev (mkEvent 2 0 2)); repeat constructor|].
    apply (Hev (mkEvent 4 0 3)); repeat constructor.
Defined.

Lemma feet_runs_are_remapped_witness :
  exists (data : gmap string ref) (p : ref) (stored : Raw Z),
    (_get_single_subject_data (__init__ true false) 1 fresh).1
    = Ok {["session_0" := data]}
    /\ data !! "run_6" = Some p
    /\ heap (_get_single_subject_data (__init__ true false) 1 fresh).2 !! p
       = Some stored
    /\ _data stored = _data recording ++ [[1; 0; 4; 0; 5; 0]].
Proof.
  destruct (feet_runs_are_remapped true false 1 fresh
              (fun _ => recording) (fun _ => decoded_events)
              (example_serves_subject _ _ _))
    as (data & Hout & Hfeet).
  destruct (Hfeet 6) as (p & stored & _ & _ & Hp & Hs & Heq & _).
  { apply (bool_decide_unpack _). vm_compute. exact I. }
  exists data, p, stored.
  split; [exact Hout|]. split; [exact Hp|]. split; [exact Hs|].
  rewrite Heq. reflexivity.
Defined.

Lemma other_runs_are_stored_as_fetched_witness :
  exists (data : gmap string ref) (p : ref) (stored : Raw Z),
    (_get_single_subject_data (__init__ true false) 1 fresh).1
    = Ok {["session_0" := data]}
    /\ data !! "run_4" = Some p
    /\ heap (_get_single_subject_data (__init__ true false) 1 fresh).2 !! p
       = Some stored
    /\ _data stored = _data recording ++ [[1; 0; 2; 0; 3; 0]].
Proof.
  destruct (other_runs_are_stored_as_fetched true false 1 fresh
              (fun _ => recording) (fun _ => decoded_events)
              (example_serves_subject _ _ _))
    as (data & Hout & _ & Hother).
  assert (Hrun : "run_4" = run_label 4 /\ 4 ∈ hand_runs (__init__ true false)).
  { split; [reflexivity|]. apply (bool_decide_unpack _). vm_compute. exact I. }
  pose proof (Hother "run_4" 4 (or_intror (or_intror Hrun))) as H.
  cbv zeta in H. destruct H as (p & _ & Hp & Hs & Hd & _).
  exists data, p, (with_stim (lib := library) recording decoded_events).
  split; [exact Hout|]. split; [exact Hp|]. split; [exact Hs|]. exact Hd.
Defined.

Lemma default_policy_session_witness :
  requests (_get_single_subject_data (__init__ true false) 109 configured).2
  = run_request 109 <$> [1; 2; 4; 8; 12; 6; 10; 14]
  /\ exists data : gmap string ref,
       (_get_single_subject_data (__init__ true false) 109 configured).1
       = Ok {["session_0" := data]}
       /\ size data = 8%nat.
Proof.
  destruct (default_policy_session 109 configured
              (fun _ => recording) (fun _ => decoded_events)
              (example_serves_subject _ _ _))
    as (_ & Hreq & data & Hout & _ & Hsize & _).
  split; [exact Hreq|]. exists data. split; [exact Hout | exact Hsize].
Defined.

Lemma session_labels_distinct_witness :
  NoDup (run_labels (__init__ true true))
  /\ exists data : gmap string ref,
       (_get_single_subject_data (__init__ true true) 7 fresh).1
       = Ok {["session_0" := data]}
       /\ size data = 14%nat.
Proof.
  destruct (session_labels_distinct true true 7 fresh
              (fun _ => recording) (fun _ => decoded_events)
              (example_serves_subject _ _ _))
    as (Hnd & _ & _ & data & Hout & Hsize & _).
  split; [exact Hnd|]. exists data. split; [exact Hout | exact Hsize].
Defined.

Lemma data_path_ignores_path_arguments_witness :
  data_path (__init__ true true) 109 (Some "/tmp/eeg") true (Some true) VNone configured
  = data_path (__init__ true true) 109 None false None VNone configured.
Proof.
  refine (proj1 (data_path_ignores_path_arguments (__init__ true true) 109 VNone
                   configured (Some "/tmp/eeg") true (Some true) None false None _)).
  apply (bool_decide_unpack _). vm_compute. exact I.
Defined.

Lemma data_path_validates_subject_witness :
  data_path (__init__ true false) 0 None false None VNone fresh
  = (Raise (ValueError "Invalid subject number"), fresh)
  /\ data_path (__init__ true false) 110 None false None VNone fresh
     = (Raise (ValueError "Invalid subject number"), fresh)
  /\ (data_path (__init__ true false) 1 None false None VNone fresh).1
     = Ok (edf_path (Some "/home/user/mne_data") 1 <$> [1; 2; 4; 8; 12; 6; 10; 14])
  /\ (data_path (__init__ true false) 109 None false None VNone fresh).1
     = Ok (edf_path (Some "/home/user/mne_data") 109 <$> [1; 2; 4; 8; 12; 6; 10; 14]).
Proof.
  split.
  { apply (proj1 (data_path_validates_subject true false 0 None false None VNone fresh)).
    lia. }
  split.
  { apply (proj1 (data_path_validates_subject true false 110 None false None VNone fresh)).
    lia. }
  split.
  - destruct (proj2 (data_path_validates_subject true false 1 None false None VNone fresh))
      as [H _]; [lia|].
    rewrite H. reflexivity.
  - destruct (proj2 (data_path_validates_subject true false 109 None false None VNone fresh))
      as [H _]; [lia|].
    rewrite H. reflexivity.
Defined.


(** *** The further properties on concrete libraries *)

Lemma custom_decodes (evs : list event) (cfg : option string) (subject run : Z) :
  library_decodes (lib := Faulty.custom Faulty.download_ok Faulty.decode_ok evs)
    cfg subject run recording evs.
Proof.
  unfold library_decodes. cbv zeta.
  split; [exists (edf_path cfg subject run), []; split; reflexivity|].
  repeat (split; [reflexivity|]).
  eexists; reflexivity.
Qed.

Lemma custom_serves (evs : list event) (cfg : option string) (subject run : Z) :
  library_serves (lib := Faulty.custom Faulty.download_ok Faulty.decode_ok evs)
    cfg subject run recording evs.
Proof.
  unfold library_serves. cbv zeta.
  split; [exists (edf_path cfg subject run), []; split; reflexivity|].
  repeat (split; [reflexivity|]).
  split; [eexists; reflexivity | reflexivity].
Qed.

Lemma normalize_name_ignores_case_and_outer_dots_witness :
  ChannelNames.normalize_name ".fz.." = ChannelNames.normalize_name "FZ".
Proof.
  apply (normalize_name_ignores_case_and_outer_dots "fz" "FZ" 1 2). reflexivity.
Defined.

Lemma canonical_table_changes_only_case_witness :
  NoDup (ChannelNames.normalize_name <$> ["Fz."; "Cz."; "C3."; "Fp1."]).
Proof.
  apply (proj2 (proj2 canonical_table_changes_only_case)).
  apply (bool_decide_unpack _). vm_compute. exact I.
Defined.

Lemma marker_holds_last_event_of_an_offset_witness :
  exists (raw : ref) (r : Raw Z) (stim : list Z),
    (_load_one_run (lib := Faulty.repeated_offset) (__init__ true false) 1 4 true
       (Faulty.fresh Faulty.repeated_offset)).1 = Ok raw
    /\ stim !! 2%nat = Some 3.
Proof.
  destruct (marker_holds_last_event_of_an_offset (lib := Faulty.repeated_offset)
              (__init__ true false) 1 4 (Faulty.fresh Faulty.repeated_offset)
              recording [mkEvent 2 0 2; mkEvent 4 0 1; mkEvent 2 0 3]
              [mkEvent 2 0 2; mkEvent 4 0 1] (mkEvent 2 0 3) [])
    as (raw & r & stim & H1 & _ & _ & H4).
  - apply custom_serves.
  - unfold offsets_in_range. repeat constructor; simpl; lia.
  - reflexivity.
  - apply (bool_decide_unpack _). vm_compute. exact I.
  - exists raw, r, stim. split; [exact H1 | exact H4].
Defined.

Lemma load_one_run_event_outside_recording_witness :
  (_load_one_run (lib := Faulty.late_event) (__init__ true false) 1 4 true
     (Faulty.fresh Faulty.late_event)).1 = Raise IndexError.
Proof.
  rewrite (load_one_run_event_outside_recording (lib := Faulty.late_event)
             (__init__ true false) 1 4 (Faulty.fresh Faulty.late_event)
             recording [mkEvent 0 0 1; mkEvent 6 0 2]).
  - reflexivity.
  - apply custom_decodes.
  - apply Exists_cons. right. apply Exists_cons. left.
    unfold offset_indexable. simpl. lia.
Defined.

Lemma load_one_run_propagates_library_errors_witness :
  (_load_one_run (lib := Faulty.offline) (__init__ true false) 1 4 true
     (Faulty.fresh Faulty.offline)).1 = Raise (LibraryError "HTTP Error 404")
  /\ (_load_one_run (lib := Faulty.no_file) (__init__ true false) 1 4 true
        (Faulty.fresh Faulty.no_file)).1 = Raise IndexError
  /\ (_load_one_run (lib := Faulty.corrupt) (__init__ true false) 1 4 true
        (Faulty.fresh Faulty.corrupt)).1 = Raise (LibraryError "not an EDF file").
Proof.
  split; [|split].
  - rewrite (proj1 (load_one_run_propagates_library_errors (lib := Faulty.offline)
                      (__init__ true false) 1 4 true (Faulty.fresh Faulty.offline))
               (LibraryError "HTTP Error 404") eq_refl).
    reflexivity.
  - rewrite (proj1 (proj2 (load_one_run_propagates_library_errors
                             (lib := Faulty.no_file) (__init__ true false) 1 4 true
                             (Faulty.fresh Faulty.no_file))) eq_refl).
    reflexivity.
  - rewrite (proj2 (proj2 (load_one_run_propagates_library_errors
                             (lib := Faulty.corrupt) (__init__ true false) 1 4 true
                             (Faulty.fresh Faulty.corrupt)))
               (edf_path (Some "/home/user/mne_data") 1 4) []
               (LibraryError "not an EDF file") eq_refl eq_refl).
    reflexivity.
Defined.

Lemma earlier_recordings_are_left_alone_witness :
  heap (_get_single_subject_data (__init__ true true) 3 occupied).2 !! 0%nat
  = Some recording
  /\ heap (_load_one_run (__init__ true true) 3 6 true occupied).2 !! 0%nat
     = Some recording.
Proof.
  destruct (earlier_recordings_are_left_alone (__init__ true true) 3 6 true
              None false None VNone occupied 0%nat recording eq_refl)
    as (H1 & H2 & _).
  split; [exact H2 | exact H1].
Defined.

Lemma two_fetches_keep_both_sessions_witness :
  exists (data1 data2 : gmap string ref) (p1 p2 : ref),
    (_get_single_subject_data (__init__ true false) 1 fresh).1
    = Ok {["session_0" := data1]}
    /\ (_get_single_subject_data (__init__ true false) 2
          (_get_single_subject_data (__init__ true false) 1 fresh).2).1
       = Ok {["session_0" := data2]}
    /\ data1 !! "run_6" = Some p1
    /\ data2 !! "run_6" = Some p2
    /\ p1 <> p2.
Proof.
  destruct (two_fetches_keep_both_sessions true false 1 2 fresh
              (fun _ => recording) (fun _ => decoded_events)
              (fun _ => recording) (fun _ => decoded_events)
              (example_serves_subject _ _ _) (example_serves_subject _ _ _))
    as (data1 & data2 & H1 & H2 & Hall).
  destruct (Hall 5%nat (mkEntry "run_6" 6 true) eq_refl)
    as (p1 & p2 & Hp1 & Hp2 & Hne & _).
  exists data1, data2, p1, p2.
  split; [exact H1|]. split; [exact H2|]. split; [exact Hp1|].
  split; [exact Hp2 | exact Hne].
Defined.

Lemma data_path_before_fetch_witness :
  (_get_single_subject_data (__init__ true false) 1
     (data_path (__init__ true false) 1 None false None VNone fresh).2).1
  = (_get_single_subject_data (__init__ true false) 1 fresh).1
  /\ length
       (requests
          (_get_single_subject_data (__init__ true false) 1
             (data_path (__init__ true false) 1 None false None VNone fresh).2).2)
     = 9%nat.
Proof.
  destruct (data_path_before_fetch (__init__ true false) 1 None false None VNone
              fresh (fun _ => recording) (fun _ => decoded_events))
    as (H1 & _ & _ & H4).
  - apply (bool_decide_unpack _). vm_compute. exact I.
  - apply example_serves_subject.
  - split; [exact H1|]. rewrite H4. reflexivity.
Defined.

Lemma feet_remap_keeps_event_positions_witness :
  exists (data : gmap string ref) (p : ref) (stored : Raw Z) (row : list Z),
    (_get_single_subject_data (__init__ true false) 1 fresh).1
    = Ok {["session_0" := data]}
    /\ data !! "run_10" = Some p
    /\ heap (_get_single_subject_data (__init__ true false) 1 fresh).2 !! p
       = Some stored
    /\ last (_data stored) = Some row
    /\ length row = 6%nat
    /\ row !! 1%nat = Some 0.
Proof.
  destruct (feet_remap_keeps_event_positions true false 1 fresh
              (fun _ => recording) (fun _ => decoded_events)
              (example_serves_subject _ _ _))
    as (_ & data & Hout & Hfeet).
  destruct (Hfeet 10) as (p & stored & row & Hp & Hs & Hl & Hlen & _ & Hz).
  { apply (bool_decide_unpack _). vm_compute. exact I. }
  exists data, p, stored, row.
  split; [exact Hout|]. split; [exact Hp|]. split; [exact Hs|].
  split; [exact Hl|]. split; [exact Hlen|].
  apply (Hz 1%nat). reflexivity.
Defined.

Lemma fetch_stops_at_the_first_missing_run_witness :
  (_get_single_subject_data (lib := Faulty.run_8_missing) (__init__ true false) 1
     (Faulty.fresh Faulty.run_8_missing)).1
  = Raise (LibraryError "HTTP Error 404")
  /\ req_runs
     <$> requests
           (_get_single_subject_data (lib := Faulty.run_8_missing)
              (__init__ true false) 1 (Faulty.fresh Faulty.run_8_missing)).2
     = [[1]; [2]; [4]; [8]].
Proof.
  rewrite (fetch_stops_at_the_first_missing_run (lib := Faulty.run_8_missing)
             (__init__ true false) 1 (Faulty.fresh Faulty.run_8_missing)
             (fun _ => recording) (fun _ => decoded_events)
             [mkEntry "baseline_eye_open" 1 false;
              mkEntry "baseline_eye_closed" 2 false; mkEntry "run_4" 4 false]
             (mkEntry "run_8" 8 false)
             [mkEntry "run_12" 12 false; mkEntry "run_6" 6 true;
              mkEntry "run_10" 10 true; mkEntry "run_14" 14 true]
             (LibraryError "HTTP Error 404")).
  - split; reflexivity.
  - reflexivity.
  - intros e He.
    assert (Hrun : entry_run e = 1 \/ entry_run e = 2 \/ entry_run e = 4).
    { rewrite !elem_of_cons, elem_of_nil in He.
      destruct He as [-> | [-> | [-> | []]]]; simpl; lia. }
    split; [|apply example_offsets].
    unfold library_serves. cbv zeta.
    split.
    { exists (edf_path (Some "/home/user/mne_data") 1 (entry_run e)), [].
      split; [|reflexivity].
      destruct Hrun as [-> | [-> | ->]]; reflexivity. }
    repeat (split; [reflexivity|]).
    split; [eexists; reflexivity | reflexivity].
  - reflexivity.
Defined.

Lemma label_holds_the_last_fetch_witness :
  exists data : gmap string ref,
    (_get_single_subject_data Faulty.doubled 1 fresh).1
    = Ok {["session_0" := data]}
    /\ data !! "run_6" = Some 3%nat
    /\ (last <$> (_data <$>
                    (heap (_get_single_subject_data Faulty.doubled 1 fresh).2
                       !! 3%nat)))
       = Some (Some [1; 0; 4; 0; 5; 0])
    /\ length (session_plan Faulty.doubled) = 4%nat
    /\ (size data < 4)%nat.
Proof.
  destruct (label_holds_the_last_fetch Faulty.doubled 1 fresh
              (fun _ => recording) (fun _ => decoded_events)
              [mkEntry "baseline_eye_open" 1 false;
               mkEntry "baseline_eye_closed" 2 false; mkEntry "run_6" 6 false]
              (mkEntry "run_6" 6 true) [])
    as (data & Hout & Hd & Ho & _ & Hlt & _).
  - apply example_serves_subject.
  - reflexivity.
  - apply not_elem_of_nil.
  - exists data. split; [exact Hout|]. split; [exact Hd|].
    split.
    { etransitivity;
        [exact (f_equal (fun o : option (Raw Z) => last <$> (_data <$> o)) Ho)
        | reflexivity]. }
    split; [reflexivity|].
    apply Hlt. intros Hnd. apply NoDup_cons in Hnd as [Hnot _].
    apply Hnot. left.
Defined.

(** *** The effects of the library on the configuration *)




End Witnesses.
